(** * migas.operations: query construction and response filtering

    A shallow embedding of [src/migas/operations.py]: the argument-string
    builder [_parse_format_params], the request assembly
    [Operation._construct_query] / [Operation.generate_query], and the
    response filter [_filter_response], together with the part of the
    Python runtime they rely on (dicts, exceptions, [str], [json.dumps],
    [json.loads] on a string document). *)

From Stdlib Require Import List NArith ZArith Lia Bool String Ascii.
Import ListNotations.

Local Open Scope N_scope.

(** ** Python strings

    A Python [str] is a sequence of Unicode code points; a code point is a
    number below [0x110000], surrogates (U+D800..U+DFFF) included. *)

Definition codepoint := N.
Definition pystr := list codepoint.

Definition lit (s : string) : pystr := map N_of_ascii (list_ascii_of_string s).

(** The double quote U+0022 and the backslash U+005C. *)
Definition DQ : codepoint := 34.
Definition BS : codepoint := 92.

(** [s] between double quotes. *)
Definition quoted (s : pystr) : pystr := DQ :: s ++ [DQ].

Fixpoint str_eqb (a b : pystr) : bool :=
  match a, b with
  | [], [] => true
  | x :: a', y :: b' => (x =? y) && str_eqb a' b'
  | _, _ => false
  end.

(** [sep.join(parts)] *)
Fixpoint py_join (sep : pystr) (parts : list pystr) : pystr :=
  match parts with
  | [] => []
  | [p] => p
  | p :: rest => p ++ sep ++ py_join sep rest
  end.

(** [s.lower()] on the letters A-Z; the source applies it to [str(b)] for a
    boolean [b] only. *)
Definition lower_codepoint (c : codepoint) : codepoint :=
  if (65 <=? c) && (c <=? 90) then c + 32 else c.

Definition py_lower (s : pystr) : pystr := map lower_codepoint s.

(** [str(n)] for an [int]. *)
Fixpoint uint_digits (u : Decimal.uint) : pystr :=
  match u with
  | Decimal.Nil => []
  | Decimal.D0 u' => 48 :: uint_digits u'
  | Decimal.D1 u' => 49 :: uint_digits u'
  | Decimal.D2 u' => 50 :: uint_digits u'
  | Decimal.D3 u' => 51 :: uint_digits u'
  | Decimal.D4 u' => 52 :: uint_digits u'
  | Decimal.D5 u' => 53 :: uint_digits u'
  | Decimal.D6 u' => 54 :: uint_digits u'
  | Decimal.D7 u' => 55 :: uint_digits u'
  | Decimal.D8 u' => 56 :: uint_digits u'
  | Decimal.D9 u' => 57 :: uint_digits u'
  end.

Definition int_str (z : Z) : pystr :=
  match Z.to_int z with
  | Decimal.Pos u => uint_digits u
  | Decimal.Neg u => 45 :: uint_digits u
  end.

Definition bool_str (b : bool) : pystr := if b then lit "True" else lit "False".

(** ** Python values

    The values that reach the two functions: what a JSON document decodes
    to, and what a caller passes as a keyword argument.  Dict keys are
    strings; a dict keeps its insertion order. *)

#[local] Set Warnings "-register-all".

Inductive pyval : Type :=
| VNone
| VBool (b : bool)
| VInt (z : Z)
| VStr (s : pystr)
| VList (items : list pyval)
| VTuple (items : list pyval)
| VDict (d : list (pystr * pyval)).

Definition pydict := list (pystr * pyval).

Section Dict.
Variable V : Type.

(** [d.get(k)], with [None] for Python's missing key. *)
Fixpoint dict_get (k : pystr) (d : list (pystr * V)) : option V :=
  match d with
  | [] => None
  | (k', v) :: rest => if str_eqb k k' then Some v else dict_get k rest
  end.

(** [d[k] = v]: an existing key keeps its place, a new one goes last. *)
Fixpoint dict_set (k : pystr) (v : V) (d : list (pystr * V)) : list (pystr * V) :=
  match d with
  | [] => [(k, v)]
  | (k', v') :: rest =>
      if str_eqb k k' then (k', v) :: rest else (k', v') :: dict_set k v rest
  end.

(** [{**d, **e}] *)
Definition dict_merge (d e : list (pystr * V)) : list (pystr * V) :=
  fold_left (fun acc kv => dict_set (fst kv) (snd kv) acc) e d.
End Dict.

Arguments dict_get {V} k d.
Arguments dict_set {V} k v d.
Arguments dict_merge {V} d e.

(** ** Exceptions, outcomes and the logger *)

Inductive exn : Type := AttributeError | TypeError | KeyError | IndexError.

(** What evaluating an expression yields.  [NotModelled] marks the one
    place where the embedding stops: [str()] of a list, tuple or dict,
    whose text depends on [repr] and the Unicode character database. *)
Inductive outcome (A : Type) : Type :=
| Ok (a : A)
| Raise (e : exn)
| NotModelled.

Arguments Ok {A} a.
Arguments Raise {A} e.
Arguments NotModelled {A}.

(** A computation yields an outcome and the records it sent to [logger]. *)
Definition M (A : Type) : Type := (outcome A * list pystr)%type.

Definition ret {A} (a : A) : M A := (Ok a, []).
Definition raise {A} (e : exn) : M A := (Raise e, []).
Definition log_error (msg : pystr) : M unit := (Ok tt, [msg]).

Definition bind {A B} (m : M A) (f : A -> M B) : M B :=
  match m with
  | (Ok a, l) => let (r, l') := f a in (r, l ++ l')
  | (Raise e, l) => (Raise e, l)
  | (NotModelled, l) => (NotModelled, l)
  end.

Notation "x <- m ;; k" := (bind m (fun x => k))
  (at level 61, m at next level, right associativity).
Notation "m ;;; k" := (bind m (fun _ => k))
  (at level 61, right associativity).

(** ** [json.dumps]

    The encoder of the standard library with its defaults
    ([ensure_ascii=True], separators [", "] and [": "]).  A string is
    written by [py_encode_basestring_ascii]: the characters from space to
    tilde stand for themselves, except the quote and the backslash; the
    others are escaped. *)

(** One digit of [format(n, "04x")]. *)
Definition hex_digit (d : N) : codepoint := if d <? 10 then 48 + d else 87 + d.

(** [format(n, "04x")] for [n < 0x10000]. *)
Definition hex4 (n : N) : pystr :=
  [hex_digit (n / 4096); hex_digit (n / 256 mod 16);
   hex_digit (n / 16 mod 16); hex_digit (n mod 16)].

(** [BS; 117] is the two-character prefix of a [u] escape. *)
Definition u_escape (n : N) : pystr := BS :: 117 :: hex4 n.

(** The replacement of one character: [ESCAPE_DCT] first, then the
    [ESCAPE_ASCII] pattern, then the [u] escapes, as a surrogate pair above
    the basic plane. *)
Definition escape_char (c : codepoint) : pystr :=
  if c =? BS then [BS; BS]
  else if c =? DQ then [BS; DQ]
  else if c =? 8 then [BS; 98]
  else if c =? 12 then [BS; 102]
  else if c =? 10 then [BS; 110]
  else if c =? 13 then [BS; 114]
  else if c =? 9 then [BS; 116]
  else if (32 <=? c) && (c <=? 126) then [c]
  else if c <? 65536 then u_escape c
  else
    let n := c - 65536 in
    let s1 := N.lor 55296 (N.land (N.shiftr n 10) 1023) in
    let s2 := N.lor 56320 (N.land n 1023) in
    u_escape s1 ++ u_escape s2.

Definition py_encode_basestring_ascii (s : pystr) : pystr :=
  DQ :: flat_map escape_char s ++ [DQ].

Fixpoint json_dumps (v : pyval) : pystr :=
  match v with
  | VNone => lit "null"
  | VBool true => lit "true"
  | VBool false => lit "false"
  | VInt z => int_str z
  | VStr s => py_encode_basestring_ascii s
  | VList items | VTuple items =>
      lit "[" ++ py_join (lit ", ") (map json_dumps items) ++ lit "]"
  | VDict d =>
      lit "{"
      ++ py_join (lit ", ")
           (map (fun kv => py_encode_basestring_ascii (fst kv) ++ lit ": "
                           ++ json_dumps (snd kv)) d)
      ++ lit "}"
  end.

(** ** [json.loads] on a string document

    The scanner of the standard library ([py_scanstring], strict mode),
    started after the opening quote.  It yields the decoded text and what
    follows the closing quote; [None] stands for [JSONDecodeError]. *)

Definition hex_value (c : codepoint) : option N :=
  if (48 <=? c) && (c <=? 57) then Some (c - 48)
  else if (97 <=? c) && (c <=? 102) then Some (c - 87)
  else if (65 <=? c) && (c <=? 70) then Some (c - 55)
  else None.

(** [_decode_uXXXX]: four hexadecimal digits. *)
Definition decode_uXXXX (h1 h2 h3 h4 : codepoint) : option N :=
  match hex_value h1, hex_value h2, hex_value h3, hex_value h4 with
  | Some a, Some b, Some c, Some d => Some (((a * 16 + b) * 16 + c) * 16 + d)
  | _, _, _, _ => None
  end.

(** The [BACKSLASH] table. *)
Definition backslash (esc : codepoint) : option codepoint :=
  if esc =? DQ then Some DQ
  else if esc =? BS then Some BS
  else if esc =? 47 then Some 47
  else if esc =? 98 then Some 8
  else if esc =? 102 then Some 12
  else if esc =? 110 then Some 10
  else if esc =? 114 then Some 13
  else if esc =? 116 then Some 9
  else None.

Definition is_high_surrogate (c : codepoint) : bool := (55296 <=? c) && (c <=? 56319).
Definition is_low_surrogate (c : codepoint) : bool := (56320 <=? c) && (c <=? 57343).

Definition join_surrogates (hi lo : codepoint) : codepoint :=
  65536 + N.lor (N.shiftl (hi - 55296) 10) (lo - 56320).

Definition emit (c : codepoint) (r : option (pystr * pystr)) : option (pystr * pystr) :=
  match r with
  | Some (decoded, rest) => Some (c :: decoded, rest)
  | None => None
  end.

Fixpoint py_scanstring (s : pystr) : option (pystr * pystr) :=
  match s with
  | [] => None
  | c :: rest =>
      if c =? DQ then Some ([], rest)
      else if c =? BS then
        match rest with
        | [] => None
        | esc :: rest1 =>
            if esc =? 117 then
              match rest1 with
              | h1 :: h2 :: h3 :: h4 :: rest2 =>
                  match decode_uXXXX h1 h2 h3 h4 with
                  | None => None
                  | Some uni =>
                      if is_high_surrogate uni then
                        match rest2 with
                        | b :: u :: rest2' =>
                            if (b =? BS) && (u =? 117) then
                              match rest2' with
                              | g1 :: g2 :: g3 :: g4 :: rest3 =>
                                  match decode_uXXXX g1 g2 g3 g4 with
                                  | None => None
                                  | Some uni2 =>
                                      if is_low_surrogate uni2
                                      then emit (join_surrogates uni uni2) (py_scanstring rest3)
                                      else emit uni (py_scanstring rest2)
                                  end
                              | _ => None
                              end
                            else emit uni (py_scanstring rest2)
                        | _ => emit uni (py_scanstring rest2)
                        end
                      else emit uni (py_scanstring rest2)
                  end
              | _ => None
              end
            else
              match backslash esc with
              | Some ch => emit ch (py_scanstring rest1)
              | None => None
              end
        end
      else if c <? 32 then None
      else emit c (py_scanstring rest)
  end.

(** [json.loads(text)] for a document that is one string literal, with no
    white space around it. *)
Definition json_loads_str (text : pystr) : option pystr :=
  match text with
  | c :: rest =>
      if c =? DQ then
        match py_scanstring rest with
        | Some (decoded, []) => Some decoded
        | _ => None
        end
      else None
  | [] => None
  end.

(** ** The argument schema

    [query_args] maps a parameter name to a [TextType] member or to a
    nested dict.  [QOther] is any other object with a [name] attribute
    (a member of another enumeration, say). *)

Inductive TextType : Type := LITERAL | FREE.

Definition TextType_name (t : TextType) : pystr :=
  match t with
  | LITERAL => lit "LITERAL"
  | FREE => lit "FREE"
  end.

Inductive qval : Type :=
| QText (t : TextType)
| QOther (name : pystr)
| QGroup (sub : list (pystr * qval)).

Definition schema := list (pystr * qval).

(** [qval.name]: a dict has no such attribute. *)
Definition qval_name (q : qval) : M pystr :=
  match q with
  | QText t => ret (TextType_name t)
  | QOther name => ret name
  | QGroup _ => raise AttributeError
  end.

(** [qarg.name], where [qarg] is a key of the schema, a [str]: there is no
    such attribute. *)
Definition str_name (qarg : pystr) : M pystr := raise AttributeError.

(** The text of a value inside an f-string, [format(v, "")]. *)
Definition py_format (v : pyval) : M pystr :=
  match v with
  | VStr s => ret s
  | VInt z => ret (int_str z)
  | VBool b => ret (bool_str b)
  | VNone => ret (lit "None")
  | VList _ | VTuple _ | VDict _ => (NotModelled, [])
  end.

(** ** [_parse_format_params] *)

Section ForItems.
Variables (K V A : Type) (body : K -> V -> M (list A)).

(** [for k, v in items: ...], where an iteration appends to a list. *)
Fixpoint for_items (items : list (K * V)) : M (list A) :=
  match items with
  | [] => ret []
  | (k, v) :: rest =>
      xs <- body k v ;;
      ys <- for_items rest ;;
      ret (xs ++ ys)
  end.
End ForItems.

Arguments for_items {K V A} body items.

(** The branch [if qarg in params], from [val = params[qarg]] to the
    fragment handed to [query_inputs.append]. *)
Definition format_present (qarg : pystr) (q : qval) (val : pyval) : M pystr :=
  let val :=
    match val with
    | VBool b => VStr (py_lower (bool_str b))
    | _ => val
    end in
  name <- qval_name q ;;
  fval <- (if str_eqb name (lit "FREE") then ret (VStr (json_dumps val))
           else if str_eqb name (lit "LITERAL") then ret val
           else
             n <- str_name qarg ;;
             log_error (lit "Do not know how to handle type " ++ n) ;;;
             ret (VStr [])) ;;
  text <- py_format fval ;;
  ret (qarg ++ lit ":" ++ text).

(** One iteration of the loop: the fragments it appends. *)
Fixpoint loop_body (params : pydict) (qarg : pystr) (q : qval) {struct q}
  : M (list pystr) :=
  match dict_get qarg params with
  | Some val =>
      fragment <- format_present qarg q val ;;
      ret [fragment]
  | None =>
      match q with
      | QGroup sub =>
          vals <- (query_inputs <- for_items (loop_body params) sub ;;
                   ret (py_join (lit ",") query_inputs)) ;;
          ret [qarg ++ lit ":{" ++ vals ++ lit "}"]
      | _ => ret []
      end
  end.

(** The list [query_inputs] when the loop is over. *)
Definition query_inputs (params : pydict) (query_args : schema) : M (list pystr) :=
  for_items (loop_body params) query_args.

Definition _parse_format_params (params : pydict) (query_args : schema) : M pystr :=
  inputs <- query_inputs params query_args ;;
  ret (py_join (lit ",") inputs).

(** ** Operations *)

Record Operation : Type := {
  operation_type : pystr;
  operation_name : pystr;
  query_args : schema;
  selections : option (list pystr);
  query : pystr;
  fingerprint : bool;
  error_response : option pydict
}.

Definition set_query (cls : Operation) (q : pystr) : Operation :=
  {| operation_type := operation_type cls;
     operation_name := operation_name cls;
     query_args := query_args cls;
     selections := selections cls;
     query := q;
     fingerprint := fingerprint cls;
     error_response := error_response cls |}.

Definition set_error_response (cls : Operation) (e : option pydict) : Operation :=
  {| operation_type := operation_type cls;
     operation_name := operation_name cls;
     query_args := query_args cls;
     selections := selections cls;
     query := query cls;
     fingerprint := fingerprint cls;
     error_response := e |}.

(** [if cls.selections] *)
Definition selections_truthy (sel : option (list pystr)) : bool :=
  match sel with
  | Some (_ :: _) => true
  | _ => false
  end.

(** [Operation._construct_query]: the value returned and the class object
    afterwards.  The class attribute [query] is assigned, then extended. *)
Definition _construct_query (cls : Operation) (params : pydict)
  : M pystr * Operation :=
  match _parse_format_params params (query_args cls) with
  | (Ok q, logs) =>
      let cls1 :=
        set_query cls (operation_type cls ++ lit "{" ++ operation_name cls
                       ++ lit "(" ++ q ++ lit ")") in
      let cls2 :=
        if selections_truthy (selections cls1)
        then set_query cls1
               (query cls1 ++ lit "{"
                ++ py_join (lit ",") (match selections cls1 with
                                      | Some fs => fs
                                      | None => []
                                      end)
                ++ lit "}")
        else cls1 in
      let cls3 := set_query cls2 (query cls2 ++ lit "}") in
      ((Ok (query cls3), logs), cls3)
  | (Raise e, logs) => ((Raise e, logs), cls)
  | (NotModelled, logs) => ((NotModelled, logs), cls)
  end.

(** [Operation.generate_query].  [populate] is what [Config.populate()]
    returns; [_introspec] finds the one parameter [args], whose value, the
    tuple of positional arguments, never equals the signature's default. *)
Definition generate_query (cls : Operation) (populate : pydict)
    (args : list pyval) (kwargs : pydict) : M pystr * Operation :=
  let parameters := [(lit "args", VTuple args)] in
  let params := if fingerprint cls then populate else [] in
  let params := dict_merge (dict_merge params kwargs) parameters in
  _construct_query cls params.

Definition AddBreadcrumb : Operation :=
  {| operation_type := lit "mutation";
     operation_name := lit "add_breadcrumb";
     query_args :=
       [(lit "project", QText FREE);
        (lit "project_version", QText FREE);
        (lit "language", QText FREE);
        (lit "language_version", QText FREE);
        (lit "ctx", QGroup
           [(lit "session_id", QText FREE);
            (lit "user_id", QText FREE);
            (lit "user_type", QText LITERAL);
            (lit "platform", QText FREE);
            (lit "container", QText LITERAL);
            (lit "is_ci", QText LITERAL)]);
        (lit "proc", QGroup
           [(lit "status", QText LITERAL);
            (lit "status_desc", QText FREE);
            (lit "error_type", QText FREE);
            (lit "error_desc", QText FREE)])];
     selections := Some [lit "success"];
     query := [];
     fingerprint := true;
     error_response := None |}.

Definition ERROR : pystr := lit "[migas-py] An error occurred.".

Definition AddProject : Operation :=
  {| operation_type := lit "mutation";
     operation_name := lit "add_project";
     query_args :=
       [(lit "p", QGroup
           [(lit "project", QText FREE);
            (lit "project_version", QText FREE);
            (lit "language", QText FREE);
            (lit "language_version", QText FREE);
            (lit "is_ci", QText LITERAL);
            (lit "status", QText LITERAL);
            (lit "status_desc", QText FREE);
            (lit "error_type", QText FREE);
            (lit "error_desc", QText FREE);
            (lit "user_id", QText FREE);
            (lit "session_id", QText FREE);
            (lit "container", QText LITERAL);
            (lit "user_type", QText LITERAL);
            (lit "platform", QText FREE);
            (lit "arguments", QText FREE)])];
     selections := None;
     query := [];
     fingerprint := true;
     error_response :=
       Some [(lit "success", VBool false);
             (lit "latest_version", VNone);
             (lit "message", VStr ERROR)] |}.

Definition CheckProject : Operation :=
  {| operation_type := lit "query";
     operation_name := lit "check_project";
     query_args :=
       [(lit "project", QText FREE);
        (lit "project_version", QText FREE);
        (lit "language", QText FREE);
        (lit "language_version", QText FREE);
        (lit "is_ci", QText LITERAL);
        (lit "status", QText LITERAL);
        (lit "status_desc", QText FREE);
        (lit "error_type", QText FREE);
        (lit "error_desc", QText FREE);
        (lit "user_id", QText FREE);
        (lit "session_id", QText FREE);
        (lit "container", QText LITERAL);
        (lit "platform", QText FREE);
        (lit "arguments", QText FREE)];
     selections := Some [lit "success"; lit "flagged"; lit "latest"; lit "message"];
     query := [];
     fingerprint := false;
     error_response := None |}.

Definition GetUsage : Operation :=
  {| operation_type := lit "query";
     operation_name := lit "get_usage";
     query_args :=
       [(lit "project", QText FREE);
        (lit "start", QText FREE);
        (lit "end", QText FREE);
        (lit "unique", QText LITERAL)];
     selections := None;
     query := [];
     fingerprint := false;
     error_response := None |}.

(** ** [_filter_response] *)

(** [obj.get(k)]: only a dict has the method. *)
Definition py_get (obj : pyval) (k : pystr) : M pyval :=
  match obj with
  | VDict d =>
      match dict_get k d with
      | Some v => ret v
      | None => ret VNone
      end
  | _ => raise AttributeError
  end.

(** [obj[0]] *)
Definition py_item0 (obj : pyval) : M pyval :=
  match obj with
  | VList (x :: _) | VTuple (x :: _) => ret x
  | VList [] | VTuple [] => raise IndexError
  | VStr (c :: _) => ret (VStr [c])
  | VStr [] => raise IndexError
  | VDict _ => raise KeyError
  | VNone | VBool _ | VInt _ => raise TypeError
  end.

(** [obj[k]] for a string [k] *)
Definition py_getitem (obj : pyval) (k : pystr) : M pyval :=
  match obj with
  | VDict d =>
      match dict_get k d with
      | Some v => ret v
      | None => raise KeyError
      end
  | _ => raise TypeError
  end.

(** [response.get('errors')[0]['message']] *)
Definition read_error_message (response : pyval) : M pyval :=
  errors <- py_get response (lit "errors") ;;
  first <- py_item0 errors ;;
  py_getitem first (lit "message").

(** [try: body finally: return fallback], where [body] assigns into
    [fallback]: the [return] of the [finally] clause drops an exception of
    the body, and what is returned is the dict as the body left it. *)
Definition try_finally_return (body : M pydict) (fallback : pydict) : M pydict :=
  match body with
  | (Ok fallback', logs) => (Ok fallback', logs)
  | (Raise _, logs) => (Ok fallback, logs)
  | (NotModelled, logs) => (NotModelled, logs)
  end.

(** The dict the built-in fallback is made of. *)
Definition default_fallback : pydict :=
  [(lit "success", VBool false); (lit "message", VStr ERROR)].

(** [response.get("data")] when both [isinstance] tests pass. *)
Definition success_data (response : pyval) : option pydict :=
  match response with
  | VDict d =>
      match dict_get (lit "data") d with
      | Some (VDict res) => Some res
      | _ => None
      end
  | _ => None
  end.

(** The function after [fallback] is bound to a dict object: what it
    returns, and that object afterwards. *)
Definition filter_with (response : pyval) (operation : pystr) (fallback : pydict)
  : M pyval * pydict :=
  match success_data response with
  | Some res =>
      (ret (match dict_get operation res with
            | Some v => v
            | None => VDict fallback
            end),
       fallback)
  | None =>
      let r :=
        try_finally_return
          (message <- read_error_message response ;;
           ret (dict_set (lit "message") message fallback))
          fallback in
      (fallback' <- r ;; ret (VDict fallback'),
       match r with
       | (Ok fallback', _) => fallback'
       | _ => fallback
       end)
  end.

(** [not fallback] *)
Definition falsy (fallback : option pydict) : bool :=
  match fallback with
  | None | Some [] => true
  | Some (_ :: _) => false
  end.

(** The dict the local name [fallback] is bound to after
    [if not fallback: fallback = {...}]. *)
Definition rebind (fallback : option pydict) : pydict :=
  match fallback with
  | Some d => if falsy fallback then default_fallback else d
  | None => default_fallback
  end.

(** [_filter_response]: what it returns, and the caller's [fallback]
    object afterwards.  A falsy [fallback] is replaced by a new dict, so
    the caller's object is not the one written to. *)
Definition _filter_response (response : pyval) (operation : pystr)
    (fallback : option pydict) : M pyval * option pydict :=
  let (r, d') := filter_with response operation (rebind fallback) in
  (r, if falsy fallback then fallback else Some d').

(** The call in [add_breadcrumb] and [add_project]:
    [_filter_response(response, cls.operation_name, cls.error_response)];
    the fallback is the class attribute itself. *)
Definition filter_for (cls : Operation) (response : pyval) : M pyval * Operation :=
  let (r, e) := _filter_response response (operation_name cls) (error_response cls) in
  (r, set_error_response cls e).

(** The call in [check_project] and [get_usage], without a fallback. *)
Definition filter_plain (cls : Operation) (response : pyval) : M pyval * Operation :=
  let (r, _) := _filter_response response (operation_name cls) None in
  (r, cls).

Definition is_mapping (v : pyval) : bool :=
  match v with
  | VDict _ => true
  | _ => false
  end.

(** ** Notions the statements use *)

(** The schema and the values of the spec's examples. *)
Definition example_schema : schema :=
  [(lit "a", QText FREE); (lit "b", QGroup [(lit "c", QText LITERAL)])].

(** An entry of a group that emits nothing: a leaf whose name is not a key
    of [params]. *)
Definition absent_leaf (params : pydict) (entry : pystr * qval) : bool :=
  match dict_get (fst entry) params, snd entry with
  | None, QText _ | None, QOther _ => true
  | _, _ => false
  end.

(** The token a boolean is lowered to. *)
Definition bool_token (b : bool) : pystr := if b then lit "true" else lit "false".

(** The fallback dict as the failure path leaves it: its [message]
    assigned when reading the error message succeeded. *)
Definition after_failure (response : pyval) (fallback : pydict) : pydict :=
  match fst (read_error_message response) with
  | Ok message => dict_set (lit "message") message fallback
  | _ => fallback
  end.

(** Two states of an operation agree on the fields that define it. *)
Definition same_definition (a b : Operation) : Prop :=
  operation_type a = operation_type b
  /\ operation_name a = operation_name b
  /\ query_args a = query_args b
  /\ selections a = selections b
  /\ fingerprint a = fingerprint b.

(** The fallback of the spec's examples. *)
Definition generic_fallback : pydict :=
  [(lit "success", VBool false); (lit "message", VStr (lit "generic"))].

(** The strings the round trip through [json.dumps] and [json.loads] gives
    back: every code point is below [0x110000], and no high surrogate is
    followed at once by a low surrogate. *)
Fixpoint no_surrogate_pair (s : pystr) : bool :=
  match s with
  | [] => true
  | c :: rest =>
      (c <? 1114112)
      && negb (is_high_surrogate c
               && match rest with
                  | c' :: _ => is_low_surrogate c'
                  | [] => false
                  end)
      && no_surrogate_pair rest
  end.

(** What the scanner looks for after a high surrogate: a [u] escape of a
    low surrogate. *)
Definition low_escape_ahead (t : pystr) : bool :=
  match t with
  | b :: u :: g1 :: g2 :: g3 :: g4 :: _ =>
      (b =? BS) && (u =? 117)
      && match decode_uXXXX g1 g2 g3 g4 with
         | Some uni2 => is_low_surrogate uni2
         | None => false
         end
  | _ => false
  end.

(** The names a schema entry looks up in the values: those of the entries
    of a nested group, at every depth. *)
Fixpoint qval_names (q : qval) : list pystr :=
  match q with
  | QGroup sub => flat_map (fun entry => fst entry :: qval_names (snd entry)) sub
  | _ => []
  end.

Definition schema_names (query_args : schema) : list pystr :=
  flat_map (fun entry => fst entry :: qval_names (snd entry)) query_args.

(** [name in names] *)
Definition name_in (name : pystr) (names : list pystr) : bool :=
  existsb (str_eqb name) names.

(** The keys of a dict are pairwise distinct. *)
Fixpoint keys_distinct (keys : list pystr) : bool :=
  match keys with
  | [] => true
  | k :: rest => negb (name_in k rest) && keys_distinct rest
  end.


(** The name of the kind of a leaf. *)
Definition kind_name (q : qval) : option pystr :=
  match q with
  | QText t => Some (TextType_name t)
  | QOther name => Some name
  | QGroup _ => None
  end.



(** The code points of a Python string. *)
Definition valid_codepoints (s : pystr) : bool :=
  forallb (fun c => c <? 1114112) s.

(** The printable ASCII characters, space to tilde. *)
Definition printable_ascii (c : codepoint) : bool := (32 <=? c) && (c <=? 126).

(** Induction on a schema entry, with the entries of a nested group as
    induction hypotheses. *)
Section QvalInduction.
Variable P : qval -> Prop.
Hypothesis P_text : forall t, P (QText t).
Hypothesis P_other : forall name, P (QOther name).
Hypothesis P_group :
  forall sub, Forall (fun entry => P (snd entry)) sub -> P (QGroup sub).

Fixpoint qval_nested_ind (q : qval) : P q :=
  match q with
  | QText t => P_text t
  | QOther name => P_other name
  | QGroup sub =>
      P_group sub
        ((fix entries (l : list (pystr * qval))
            : Forall (fun entry => P (snd entry)) l :=
            match l with
            | [] => Forall_nil _
            | entry :: l' =>
                Forall_cons entry (qval_nested_ind (snd entry)) (entries l')
            end) sub)
  end.
End QvalInduction.

(** * Properties *)

(** ** The monad *)

Lemma bind_ok {A B} (m : M A) (f : A -> M B) a l b l' :
  m = (Ok a, l) -> f a = (Ok b, l') -> bind m f = (Ok b, l ++ l').
Proof. intros -> Hf. unfold bind. now rewrite Hf. Qed.

Lemma bind_raise {A B} (m : M A) (f : A -> M B) e l :
  m = (Raise e, l) -> bind m f = (Raise e, l).
Proof. now intros ->. Qed.

(** ** The loop of [_parse_format_params] *)

Lemma query_inputs_cons params k q rest fr lk fb lb :
  loop_body params k q = (Ok fr, lk) ->
  query_inputs params rest = (Ok fb, lb) ->
  query_inputs params ((k, q) :: rest) = (Ok (fr ++ fb), lk ++ lb).
Proof.
  intros Hk Hrest. unfold query_inputs in *. cbn [for_items].
  erewrite bind_ok; [reflexivity|exact Hk|].
  erewrite bind_ok; [|exact Hrest|reflexivity].
  now rewrite app_nil_r.
Qed.

Lemma query_inputs_cons_raise params k q rest e l :
  loop_body params k q = (Raise e, l) ->
  query_inputs params ((k, q) :: rest) = (Raise e, l).
Proof.
  intros Hk. unfold query_inputs. cbn [for_items]. now apply bind_raise.
Qed.

Lemma query_inputs_app params pre : forall rest fa la r lb,
  query_inputs params pre = (Ok fa, la) ->
  query_inputs params rest = (r, lb) ->
  query_inputs params (pre ++ rest)
  = (match r with
     | Ok fb => Ok (fa ++ fb)
     | Raise e => Raise e
     | NotModelled => NotModelled
     end, la ++ lb).
Proof.
  unfold query_inputs.
  induction pre as [|[k q] pre IH]; intros rest fa la r lb Hpre Hrest.
  - cbn in Hpre. injection Hpre as <- <-. cbn. rewrite Hrest. now destruct r.
  - cbn [for_items app] in *.
    destruct (loop_body params k q) as [[fr| |] lk] eqn:Hk; cbn in Hpre; try discriminate.
    destruct (for_items (loop_body params) pre) as [[fp| |] lp] eqn:Hp;
      cbn in Hpre; try discriminate.
    injection Hpre as <- <-.
    rewrite (IH rest fp lp r lb eq_refl Hrest).
    destruct r; cbn; rewrite ?app_nil_r, <- ?app_assoc; reflexivity.
Qed.

(** The builder on a schema split around one entry whose iteration
    succeeds. *)
Lemma parse_split params pre k q post fa la fr lk fb lb :
  query_inputs params pre = (Ok fa, la) ->
  loop_body params k q = (Ok fr, lk) ->
  query_inputs params post = (Ok fb, lb) ->
  _parse_format_params params (pre ++ (k, q) :: post)
  = (Ok (py_join (lit ",") (fa ++ fr ++ fb)), la ++ lk ++ lb).
Proof.
  intros Hpre Hk Hpost. unfold _parse_format_params.
  pose proof (query_inputs_cons _ _ _ _ _ _ _ _ Hk Hpost) as Hrest.
  erewrite query_inputs_app; [|exact Hpre|exact Hrest].
  cbn. now rewrite app_nil_r.
Qed.

(** The builder on a schema split before an entry whose iteration raises. *)
Lemma parse_split_raise params pre k q post fa la e lk :
  query_inputs params pre = (Ok fa, la) ->
  loop_body params k q = (Raise e, lk) ->
  _parse_format_params params (pre ++ (k, q) :: post) = (Raise e, la ++ lk).
Proof.
  intros Hpre Hk. unfold _parse_format_params.
  pose proof (query_inputs_cons_raise _ _ _ post _ _ Hk) as Hrest.
  erewrite query_inputs_app; [|exact Hpre|exact Hrest].
  reflexivity.
Qed.

(** A nested group whose name is not a key of [params] is built from the
    same [params], between braces. *)
Lemma loop_body_group params g sub body l :
  dict_get g params = None ->
  _parse_format_params params sub = (Ok body, l) ->
  loop_body params g (QGroup sub) = (Ok [g ++ lit ":{" ++ body ++ lit "}"], l).
Proof.
  intros Hg Hsub. cbn [loop_body]. rewrite Hg.
  unfold _parse_format_params, query_inputs in Hsub. rewrite Hsub.
  cbn. now rewrite app_nil_r.
Qed.

Lemma absent_leaves_emit_nothing params sub :
  forallb (absent_leaf params) sub = true ->
  query_inputs params sub = (Ok [], []).
Proof.
  unfold query_inputs.
  induction sub as [|[k q] sub IH]; intros H; [reflexivity|].
  cbn [forallb] in H. apply andb_true_iff in H as [Hk Hsub].
  cbn [for_items]. rewrite (IH Hsub).
  unfold absent_leaf in Hk. cbn [fst snd] in Hk.
  destruct q; cbn [loop_body]; destruct (dict_get k params); try discriminate;
    reflexivity.
Qed.

(** ** Nested groups *)

(** C1, as the spec states it, fails: for the schema
    [{a: FREE, b: {c: LITERAL}}] and the values [{a: x}] the builder returns
    [a:"x",b:{}], and not [a:"x"]: the group is still there, with an empty
    body. *)
Lemma empty_group_not_omitted :
  _parse_format_params [(lit "a", VStr (lit "x"))] example_schema
  = (Ok (lit "a:" ++ quoted (lit "x") ++ lit ",b:{}"), [])
  /\ lit "a:" ++ quoted (lit "x") ++ lit ",b:{}" <> lit "a:" ++ quoted (lit "x").
Proof. split; [reflexivity | discriminate]. Qed.

(** C1, amended: a nested group whose name and whose children, all of them
    leaves, are not keys of the values is not omitted: the loop appends the
    fragment [name:{}] for it, between the fragments of the entries before
    and after it. *)
Theorem empty_group_rendered_with_empty_body params pre g sub post fa la fb lb :
  dict_get g params = None ->
  forallb (absent_leaf params) sub = true ->
  query_inputs params pre = (Ok fa, la) ->
  query_inputs params post = (Ok fb, lb) ->
  _parse_format_params params (pre ++ (g, QGroup sub) :: post)
  = (Ok (py_join (lit ",") (fa ++ (g ++ lit ":{}") :: fb)), la ++ lb).
Proof.
  intros Hg Hsub Hpre Hpost.
  assert (Hbody : _parse_format_params params sub = (Ok [], [])).
  { unfold _parse_format_params.
    now rewrite (absent_leaves_emit_nothing _ _ Hsub). }
  pose proof (loop_body_group _ _ _ _ _ Hg Hbody) as Hloop.
  exact (parse_split _ _ _ _ _ _ _ _ _ _ _ Hpre Hloop Hpost).
Qed.

(** The spec's example: the values hold [a] only. *)
Lemma empty_group_rendered_example :
  _parse_format_params [(lit "a", VStr (lit "x"))] example_schema
  = (Ok (lit "a:" ++ quoted (lit "x") ++ lit ",b:{}"), []).
Proof.
  exact (empty_group_rendered_with_empty_body
           [(lit "a", VStr (lit "x"))] [(lit "a", QText FREE)] (lit "b")
           [(lit "c", QText LITERAL)] [] [lit "a:" ++ quoted (lit "x")] [] [] []
           eq_refl eq_refl eq_refl eq_refl).
Defined.

(** C2, as the spec states it, fails: with the group's values under the
    group's own name, [{a: x, b: {c: True}}], the entry [b] is looked up in
    the values, found, and handled as a leaf; reading [name] of its schema,
    a dict, raises [AttributeError], and no string is returned. *)
Lemma sub_mapping_under_group_name_raises :
  _parse_format_params
    [(lit "a", VStr (lit "x")); (lit "b", VDict [(lit "c", VBool true)])]
    example_schema
  = (Raise AttributeError, [])
  /\ Raise AttributeError
     <> Ok (lit "a:" ++ quoted (lit "x") ++ lit ",b:{c:true}").
Proof. split; [reflexivity | discriminate]. Qed.

(** C2, amended: a nested group is serialized from the same values mapping
    as its parent, where its children stand under their own names and the
    group's name is not a key; for the schema [{a: FREE, b: {c: LITERAL}}]
    and the values [{a: x, c: True}] the builder returns
    [a:"x",b:{c:true}]. *)
Theorem group_built_from_same_values params g sub body l :
  dict_get g params = None ->
  _parse_format_params params sub = (Ok body, l) ->
  _parse_format_params params [(g, QGroup sub)]
  = (Ok (g ++ lit ":{" ++ body ++ lit "}"), l).
Proof.
  intros Hg Hsub.
  pose proof (loop_body_group _ _ _ _ _ Hg Hsub) as Hloop.
  pose proof (parse_split params [] g (QGroup sub) [] [] [] _ _ [] []
                eq_refl Hloop eq_refl) as H.
  cbn [app] in H. rewrite app_nil_r in H. exact H.
Qed.

(** The spec's schema, with [c] given beside [a]. *)
Lemma group_built_from_same_values_example :
  _parse_format_params
    [(lit "a", VStr (lit "x")); (lit "c", VBool true)] example_schema
  = (Ok (lit "a:" ++ quoted (lit "x") ++ lit ",b:{c:true}"), [])
  /\ _parse_format_params
       [(lit "a", VStr (lit "x")); (lit "c", VBool true)]
       [(lit "b", QGroup [(lit "c", QText LITERAL)])]
     = (Ok (lit "b:{c:true}"), []).
Proof.
  split; [reflexivity|].
  exact (group_built_from_same_values
           [(lit "a", VStr (lit "x")); (lit "c", VBool true)] (lit "b")
           [(lit "c", QText LITERAL)] (lit "c:true") [] eq_refl eq_refl).
Defined.

(** ** Leaves *)

Lemma format_present_literal_bool qarg b :
  format_present qarg (QText LITERAL) (VBool b)
  = (Ok (qarg ++ lit ":" ++ bool_token b), []).
Proof. now destruct b. Qed.

Lemma format_present_free_bool qarg b :
  format_present qarg (QText FREE) (VBool b)
  = (Ok (qarg ++ lit ":" ++ quoted (bool_token b)), []).
Proof. now destruct b. Qed.

Lemma format_present_free_str qarg s :
  format_present qarg (QText FREE) (VStr s)
  = (Ok (qarg ++ lit ":" ++ py_encode_basestring_ascii s), []).
Proof. reflexivity. Qed.

Lemma format_present_other qarg name val :
  str_eqb name (lit "FREE") = false ->
  str_eqb name (lit "LITERAL") = false ->
  format_present qarg (QOther name) val = (Raise AttributeError, []).
Proof.
  intros HF HL. unfold format_present. cbn [qval_name].
  unfold bind at 1. cbn [ret]. rewrite HF, HL. reflexivity.
Qed.

Lemma loop_body_present params qarg q val fragment l :
  dict_get qarg params = Some val ->
  format_present qarg q val = (Ok fragment, l) ->
  loop_body params qarg q = (Ok [fragment], l).
Proof.
  intros Hq Hf. destruct q; cbn [loop_body]; rewrite Hq, Hf; cbn;
    now rewrite app_nil_r.
Qed.

Lemma loop_body_present_raise params qarg q val e l :
  dict_get qarg params = Some val ->
  format_present qarg q val = (Raise e, l) ->
  loop_body params qarg q = (Raise e, l).
Proof.
  intros Hq Hf. destruct q; cbn [loop_body]; now rewrite Hq, Hf.
Qed.

(** C7, as the spec states it, fails for a [FREE] entry: the boolean is
    lowered to the string [true], which [json.dumps] then quotes. *)
Lemma free_boolean_is_quoted :
  _parse_format_params [(lit "a", VBool true)] [(lit "a", QText FREE)]
  = (Ok (lit "a:" ++ quoted (lit "true")), [])
  /\ lit "a:" ++ quoted (lit "true") <> lit "a:true".
Proof. split; [reflexivity | discriminate]. Qed.

(** C7, amended: a boolean supplied for a [LITERAL] entry is rendered as the
    lowercase, unquoted token [true] or [false]; supplied for a [FREE]
    entry, it is rendered as the same lowercase token between double
    quotes. *)
Theorem boolean_rendering params pre name post b fa la fb lb :
  dict_get name params = Some (VBool b) ->
  query_inputs params pre = (Ok fa, la) ->
  query_inputs params post = (Ok fb, lb) ->
  _parse_format_params params (pre ++ (name, QText LITERAL) :: post)
  = (Ok (py_join (lit ",") (fa ++ (name ++ lit ":" ++ bool_token b) :: fb)),
     la ++ lb)
  /\ _parse_format_params params (pre ++ (name, QText FREE) :: post)
     = (Ok (py_join (lit ",")
              (fa ++ (name ++ lit ":" ++ quoted (bool_token b)) :: fb)),
        la ++ lb).
Proof.
  intros Hname Hpre Hpost. split.
  - pose proof (loop_body_present _ _ _ _ _ _ Hname
                  (format_present_literal_bool name b)) as Hloop.
    exact (parse_split _ _ _ _ _ _ _ _ _ _ _ Hpre Hloop Hpost).
  - pose proof (loop_body_present _ _ _ _ _ _ Hname
                  (format_present_free_bool name b)) as Hloop.
    exact (parse_split _ _ _ _ _ _ _ _ _ _ _ Hpre Hloop Hpost).
Qed.

(** [unique] of [get_usage], as a [LITERAL] and as a [FREE] entry. *)
Lemma boolean_rendering_example :
  _parse_format_params
    [(lit "project", VStr (lit "x")); (lit "unique", VBool false)]
    [(lit "project", QText FREE); (lit "unique", QText LITERAL)]
  = (Ok (lit "project:" ++ quoted (lit "x") ++ lit ",unique:false"), [])
  /\ _parse_format_params
       [(lit "project", VStr (lit "x")); (lit "unique", VBool false)]
       [(lit "project", QText FREE); (lit "unique", QText FREE)]
     = (Ok (lit "project:" ++ quoted (lit "x") ++ lit ",unique:"
            ++ quoted (lit "false")), []).
Proof.
  exact (boolean_rendering
           [(lit "project", VStr (lit "x")); (lit "unique", VBool false)]
           [(lit "project", QText FREE)] (lit "unique") [] false
           [lit "project:" ++ quoted (lit "x")] [] [] []
           eq_refl eq_refl eq_refl).
Defined.

(** C8: the code does not do what the claim says.  For an entry whose kind
    is neither [FREE] nor [LITERAL] and whose name is a key of the values,
    the branch that is meant to log and to go on with an empty value
    evaluates [qarg.name] on the key, a [str], first: [AttributeError] is
    raised, no record is logged, and the call is aborted. *)
Theorem unrecognized_kind_aborts params pre qarg name post val fa la :
  dict_get qarg params = Some val ->
  str_eqb name (lit "FREE") = false ->
  str_eqb name (lit "LITERAL") = false ->
  query_inputs params pre = (Ok fa, la) ->
  _parse_format_params params (pre ++ (qarg, QOther name) :: post)
  = (Raise AttributeError, la).
Proof.
  intros Hq HF HL Hpre.
  pose proof (loop_body_present_raise _ _ _ _ _ _ Hq
                (format_present_other qarg name val HF HL)) as Hloop.
  rewrite (parse_split_raise _ _ _ _ post _ _ _ _ Hpre Hloop).
  now rewrite app_nil_r.
Qed.

(** An entry of a kind named [OTHER], after an entry that is built. *)
Lemma unrecognized_kind_aborts_example :
  _parse_format_params
    [(lit "a", VStr (lit "x")); (lit "b", VStr (lit "y"))]
    [(lit "a", QText FREE); (lit "b", QOther (lit "OTHER"))]
  = (Raise AttributeError, []).
Proof.
  exact (unrecognized_kind_aborts
           [(lit "a", VStr (lit "x")); (lit "b", VStr (lit "y"))]
           [(lit "a", QText FREE)] (lit "b") (lit "OTHER") [] (VStr (lit "y"))
           [lit "a:" ++ quoted (lit "x")] []
           eq_refl eq_refl eq_refl eq_refl).
Defined.

(** ** The response filter *)

Lemma str_eqb_eq a : forall b, str_eqb a b = true <-> a = b.
Proof.
  induction a as [|x a IH]; intros [|y b]; cbn; try easy.
  rewrite andb_true_iff, N.eqb_eq, IH. split.
  - now intros [-> ->].
  - intros H. now injection H.
Qed.

Lemma str_eqb_refl a : str_eqb a a = true.
Proof. now apply str_eqb_eq. Qed.

Lemma dict_get_set_same {V} k (v : V) d : dict_get k (dict_set k v d) = Some v.
Proof.
  induction d as [|[k' v'] d IH]; cbn.
  - now rewrite str_eqb_refl.
  - destruct (str_eqb k k') eqn:E; cbn; now rewrite E.
Qed.

Lemma dict_get_set_other {V} k k' (v : V) d :
  str_eqb k' k = false -> dict_get k' (dict_set k v d) = dict_get k' d.
Proof.
  intros Hk. induction d as [|[k0 v0] d IH]; cbn.
  - now rewrite Hk.
  - destruct (str_eqb k k0) eqn:E; cbn.
    + apply str_eqb_eq in E as <-. now rewrite Hk.
    + now rewrite IH.
Qed.

(** Reading the error message yields a value or raises; it logs nothing. *)
Lemma read_error_message_cases response :
  (exists message, read_error_message response = (Ok message, []))
  \/ (exists e, read_error_message response = (Raise e, [])).
Proof.
  unfold read_error_message.
  destruct response as [| | | | | |d]; try (right; eexists; reflexivity).
  cbn [py_get].
  destruct (dict_get (lit "errors") d) as [errors|]; [|right; eexists; reflexivity].
  destruct errors as [| | |[|c s]|[|first rest]|[|first rest]|d'];
    try (right; eexists; reflexivity).
  - destruct first as [| | | | | |d']; try (right; eexists; reflexivity).
    cbn. destruct (dict_get _ d'); [left|right]; eexists; reflexivity.
  - destruct first as [| | | | | |d']; try (right; eexists; reflexivity).
    cbn. destruct (dict_get _ d'); [left|right]; eexists; reflexivity.
Qed.

(** When the read succeeds: [response] is a dict whose [errors] is a
    non-empty list or tuple, the first item a dict with the key
    [message]. *)
Lemma read_error_message_ok response message :
  fst (read_error_message response) = Ok message
  <-> exists d first rest,
        response = VDict d
        /\ (dict_get (lit "errors") d = Some (VList (VDict first :: rest))
            \/ dict_get (lit "errors") d = Some (VTuple (VDict first :: rest)))
        /\ dict_get (lit "message") first = Some message.
Proof.
  split.
  - unfold read_error_message.
    destruct response as [| | | | | |d]; try discriminate.
    cbn [py_get].
    destruct (dict_get (lit "errors") d) as [errors|] eqn:He; try discriminate.
    destruct errors as [| | |[|c s]|[|first rest]|[|first rest]|d'];
      try discriminate;
      destruct first as [| | | | | |d']; try discriminate;
      cbn; destruct (dict_get _ d') eqn:Hm; try discriminate;
      intros [= <-]; exists d, d', rest; auto.
  - intros (d & first & rest & -> & [He|He] & Hm);
      unfold read_error_message; cbn [py_get]; rewrite He;
      cbn [ret bind py_item0 py_getitem]; now rewrite Hm.
Qed.

(** The function on the failure path, once [fallback] is bound. *)
Lemma filter_with_failure response operation fallback :
  success_data response = None ->
  filter_with response operation fallback
  = ((Ok (VDict (after_failure response fallback)), []),
     after_failure response fallback).
Proof.
  intros Hs. unfold filter_with, after_failure. rewrite Hs.
  destruct (read_error_message_cases response) as [[m ->]|[e ->]]; reflexivity.
Qed.

Lemma filter_with_success response operation fallback res :
  success_data response = Some res ->
  filter_with response operation fallback
  = ((Ok (match dict_get operation res with
          | Some v => v
          | None => VDict fallback
          end), []),
     fallback).
Proof. intros Hs. unfold filter_with. now rewrite Hs. Qed.

Lemma success_data_dict d res :
  dict_get (lit "data") d = Some (VDict res) -> success_data (VDict d) = Some res.
Proof. intros H. unfold success_data. now rewrite H. Qed.

(** A fallback that is not falsy is the dict the function works on. *)
Lemma rebind_truthy fallback :
  falsy fallback = false -> Some (rebind fallback) = fallback.
Proof. now destruct fallback as [[|e d]|]. Qed.

Lemma rebind_falsy fallback :
  falsy fallback = true -> rebind fallback = default_fallback.
Proof. now destruct fallback as [[|e d]|]. Qed.

(** C4: for a response that is a dict whose [data] is a dict,
    [_filter_response] returns [data[operation]] when that key is there,
    and otherwise the fallback it works with, unchanged: nothing is written
    to the caller's fallback, and a fallback that is not falsy is that
    dict itself. *)
Theorem success_returns_payload d res operation fallback :
  dict_get (lit "data") d = Some (VDict res) ->
  _filter_response (VDict d) operation fallback
  = ((Ok (match dict_get operation res with
          | Some v => v
          | None => VDict (rebind fallback)
          end), []),
     fallback)
  /\ (falsy fallback = false -> Some (rebind fallback) = fallback).
Proof.
  intros Hd. split; [|apply rebind_truthy].
  unfold _filter_response.
  rewrite (filter_with_success _ _ _ _ (success_data_dict _ _ Hd)).
  destruct (falsy fallback) eqn:Hf; [reflexivity|].
  now rewrite (rebind_truthy _ Hf).
Qed.

(** The spec's example, and a response without the operation's name. *)
Lemma success_returns_payload_example :
  _filter_response
    (VDict [(lit "data", VDict [(lit "op", VDict [(lit "success", VBool true)])])])
    (lit "op") (Some generic_fallback)
  = ((Ok (VDict [(lit "success", VBool true)]), []), Some generic_fallback)
  /\ _filter_response
       (VDict [(lit "data", VDict [(lit "other", VDict [(lit "success", VBool true)])])])
       (lit "op") (Some generic_fallback)
     = ((Ok (VDict generic_fallback), []), Some generic_fallback).
Proof.
  split.
  - exact (proj1 (success_returns_payload
                    [(lit "data", VDict [(lit "op", VDict [(lit "success", VBool true)])])]
                    [(lit "op", VDict [(lit "success", VBool true)])]
                    (lit "op") (Some generic_fallback) eq_refl)).
  - exact (proj1 (success_returns_payload
                    [(lit "data", VDict [(lit "other", VDict [(lit "success", VBool true)])])]
                    [(lit "other", VDict [(lit "success", VBool true)])]
                    (lit "op") (Some generic_fallback) eq_refl)).
Defined.

(** C5: on the failure path ([response] is not a dict, or its [data] is
    absent or not a dict) [_filter_response] returns the fallback it works
    with; no exception of the read [response.get('errors')[0]['message']]
    is propagated.  When the read succeeds, the [message] of the returned
    dict is what was read and every other key is as before; when it raises,
    the dict is returned as it was. *)
Theorem failure_returns_fallback response operation fallback :
  success_data response = None ->
  fst (_filter_response response operation fallback)
  = (Ok (VDict (after_failure response (rebind fallback))), [])
  /\ (forall message,
        fst (read_error_message response) = Ok message ->
        dict_get (lit "message") (after_failure response (rebind fallback))
        = Some message
        /\ forall k, str_eqb k (lit "message") = false ->
             dict_get k (after_failure response (rebind fallback))
             = dict_get k (rebind fallback))
  /\ ((forall message, fst (read_error_message response) <> Ok message) ->
      after_failure response (rebind fallback) = rebind fallback).
Proof.
  intros Hs. split; [|split].
  - unfold _filter_response. now rewrite (filter_with_failure _ _ _ Hs).
  - intros message Hm. unfold after_failure. rewrite Hm. split.
    + apply dict_get_set_same.
    + intros k Hk. now apply dict_get_set_other.
  - intros Hno. unfold after_failure.
    destruct (fst (read_error_message response)) as [m| |] eqn:E;
      [now elim (Hno m)|reflexivity|reflexivity].
Qed.

(** The spec's three examples of the failure path. *)
Lemma failure_returns_fallback_example :
  fst (_filter_response
         (VDict [(lit "errors",
                  VList [VDict [(lit "message", VStr (lit "bad input"))]])])
         (lit "op") (Some generic_fallback))
  = (Ok (VDict [(lit "success", VBool false);
                (lit "message", VStr (lit "bad input"))]), [])
  /\ fst (_filter_response (VStr (lit "not a dict")) (lit "op")
            (Some generic_fallback))
     = (Ok (VDict generic_fallback), [])
  /\ fst (_filter_response (VDict [(lit "data", VNone)]) (lit "op")
            (Some generic_fallback))
     = (Ok (VDict generic_fallback), []).
Proof.
  split; [|split].
  - exact (proj1 (failure_returns_fallback
                    (VDict [(lit "errors",
                             VList [VDict [(lit "message", VStr (lit "bad input"))]])])
                    (lit "op") (Some generic_fallback) eq_refl)).
  - exact (proj1 (failure_returns_fallback (VStr (lit "not a dict")) (lit "op")
                    (Some generic_fallback) eq_refl)).
  - exact (proj1 (failure_returns_fallback (VDict [(lit "data", VNone)]) (lit "op")
                    (Some generic_fallback) eq_refl)).
Defined.

(** C6, as the spec states it, fails: what stands under the operation's
    name in [data] is returned as it is, a mapping or not; for the response
    [{data: {op: None}}] the result is [None]. *)
Lemma null_payload_is_returned :
  fst (_filter_response
         (VDict [(lit "data", VDict [(lit "op", VNone)])]) (lit "op") None)
  = (Ok VNone, [])
  /\ is_mapping VNone = false.
Proof. split; reflexivity. Qed.

(** C6, amended: for every response, operation name and fallback,
    [_filter_response] returns a value and raises nothing; the value is a
    mapping, except when [data] is a mapping with the operation's name as a
    key: then it is what stands under that key, whatever it is. *)
Theorem filter_never_raises response operation fallback :
  exists v,
    fst (_filter_response response operation fallback) = (Ok v, [])
    /\ (is_mapping v = true
        \/ exists res,
             success_data response = Some res
             /\ dict_get operation res = Some v).
Proof.
  unfold _filter_response.
  destruct (success_data response) as [res|] eqn:Hs.
  - rewrite (filter_with_success _ _ _ _ Hs). cbn [fst].
    destruct (dict_get operation res) as [v|] eqn:Hop.
    + exists v. split; [reflexivity|]. right. now exists res.
    + eexists. split; [reflexivity|]. now left.
  - rewrite (filter_with_failure _ _ _ Hs). cbn [fst].
    eexists. split; [reflexivity|]. now left.
Qed.

(** C10: a fallback that is falsy, [None] or the empty dict, is not used
    and not written to: the function works with the built-in default
    [{success: False, message: ERROR}] instead, which is the result when
    [data] is a mapping without the operation's name, and the dict returned
    on the failure path, its [message] assigned when the error message
    could be read. *)
Theorem falsy_fallback_replaced_by_default response operation fallback :
  falsy fallback = true ->
  _filter_response response operation fallback
  = (fst (filter_with response operation default_fallback), fallback)
  /\ (forall res,
        success_data response = Some res ->
        dict_get operation res = None ->
        fst (_filter_response response operation fallback)
        = (Ok (VDict default_fallback), []))
  /\ (success_data response = None ->
      fst (_filter_response response operation fallback)
      = (Ok (VDict (after_failure response default_fallback)), [])).
Proof.
  intros Hf. unfold _filter_response.
  rewrite (rebind_falsy _ Hf), Hf. split; [|split].
  - now destruct (filter_with response operation default_fallback).
  - intros res Hs Hop. rewrite (filter_with_success _ _ _ _ Hs), Hop. reflexivity.
  - intros Hs. now rewrite (filter_with_failure _ _ _ Hs).
Qed.

(** An empty fallback on the failure path, and none on the other. *)
Lemma falsy_fallback_replaced_example :
  _filter_response
    (VDict [(lit "errors",
             VList [VDict [(lit "message", VStr (lit "bad input"))]])])
    (lit "op") (Some [])
  = ((Ok (VDict [(lit "success", VBool false);
                 (lit "message", VStr (lit "bad input"))]), []),
     Some [])
  /\ _filter_response (VDict [(lit "data", VDict [])]) (lit "op") None
     = ((Ok (VDict [(lit "success", VBool false); (lit "message", VStr ERROR)]),
         []),
        None).
Proof.
  split.
  - exact (proj1 (falsy_fallback_replaced_by_default
                    (VDict [(lit "errors",
                             VList [VDict [(lit "message", VStr (lit "bad input"))]])])
                    (lit "op") (Some []) eq_refl)).
  - exact (proj1 (falsy_fallback_replaced_by_default
                    (VDict [(lit "data", VDict [])]) (lit "op") None eq_refl)).
Defined.

(** ** What the two functions write to an operation *)

Lemma same_definition_refl cls : same_definition cls cls.
Proof. now repeat split. Qed.

Lemma construct_query_preserves cls params :
  same_definition (snd (_construct_query cls params)) cls
  /\ error_response (snd (_construct_query cls params)) = error_response cls.
Proof.
  unfold _construct_query.
  destruct (_parse_format_params params (query_args cls)) as [[q| |] logs];
    cbn [snd]; try (split; [apply same_definition_refl|reflexivity]).
  cbn [selections set_query].
  destruct (selections_truthy (selections cls)); now repeat split.
Qed.

Lemma construct_query_sets_query cls params q logs :
  fst (_construct_query cls params) = (Ok q, logs) ->
  query (snd (_construct_query cls params)) = q.
Proof.
  unfold _construct_query.
  destruct (_parse_format_params params (query_args cls)) as [[q'| |] logs'];
    cbn [fst snd]; try discriminate.
  now intros [= <- _].
Qed.

Lemma construct_query_raise_keeps cls params e logs :
  fst (_construct_query cls params) = (Raise e, logs) ->
  snd (_construct_query cls params) = cls.
Proof.
  unfold _construct_query.
  destruct (_parse_format_params params (query_args cls)) as [[q'| |] logs'];
    cbn [fst snd]; try discriminate; reflexivity.
Qed.

Lemma set_error_response_same cls : set_error_response cls (error_response cls) = cls.
Proof. now destruct cls. Qed.

Lemma filter_for_state cls response :
  snd (filter_for cls response)
  = set_error_response cls
      (snd (_filter_response response (operation_name cls) (error_response cls))).
Proof.
  unfold filter_for.
  now destruct (_filter_response response (operation_name cls) (error_response cls)).
Qed.

Lemma filter_keeps_fallback response operation fallback :
  success_data response <> None \/ falsy fallback = true ->
  snd (_filter_response response operation fallback) = fallback.
Proof.
  intros H. unfold _filter_response.
  destruct (falsy fallback) eqn:Hf.
  - now destruct (filter_with response operation (rebind fallback)).
  - destruct H as [Hs|]; [|discriminate].
    destruct (success_data response) as [res|] eqn:E; [|now elim Hs].
    rewrite (filter_with_success _ _ _ _ E). cbn [snd].
    now apply rebind_truthy.
Qed.

(** C3, as the spec states it, fails: [_construct_query] assigns the class
    attribute [query], and [_filter_response], handed the class attribute
    [error_response] as its fallback, assigns that dict's [message]. *)
Lemma operation_fields_are_written :
  (query GetUsage = []
   /\ query (snd (_construct_query GetUsage [(lit "project", VStr (lit "x"))]))
      = lit "query{get_usage(project:" ++ quoted (lit "x") ++ lit ")}")
  /\ (error_response AddProject
      = Some [(lit "success", VBool false); (lit "latest_version", VNone);
              (lit "message", VStr ERROR)]
      /\ error_response
           (snd (filter_for AddProject
                   (VDict [(lit "errors",
                            VList [VDict [(lit "message", VStr (lit "bad input"))]])])))
         = Some [(lit "success", VBool false); (lit "latest_version", VNone);
                 (lit "message", VStr (lit "bad input"))]).
Proof. repeat split. Qed.

(** C3, amended: query construction and the response filter leave the
    fields that define an operation as they are: its type, name,
    [query_args] schema, selections and fingerprint flag.
    [_construct_query], and [generate_query] through it, leaves
    [error_response] alone and assigns [query], the string it returns; when
    the builder raises, nothing is assigned.  The filter leaves [query]
    alone, and leaves [error_response] alone when [data] is a mapping, when
    [error_response] is falsy, and when it is called without a fallback. *)
Theorem operation_definition_preserved cls params populate args kwargs response :
  (same_definition (snd (_construct_query cls params)) cls
   /\ error_response (snd (_construct_query cls params)) = error_response cls
   /\ (forall q logs,
         fst (_construct_query cls params) = (Ok q, logs) ->
         query (snd (_construct_query cls params)) = q)
   /\ (forall e logs,
         fst (_construct_query cls params) = (Raise e, logs) ->
         snd (_construct_query cls params) = cls))
  /\ (same_definition (snd (generate_query cls populate args kwargs)) cls
      /\ error_response (snd (generate_query cls populate args kwargs))
         = error_response cls)
  /\ (same_definition (snd (filter_for cls response)) cls
      /\ query (snd (filter_for cls response)) = query cls
      /\ (success_data response <> None \/ falsy (error_response cls) = true ->
          snd (filter_for cls response) = cls))
  /\ snd (filter_plain cls response) = cls.
Proof.
  split; [|split; [|split]].
  - destruct (construct_query_preserves cls params) as [Hd He].
    repeat split; try apply Hd; try exact He.
    + apply construct_query_sets_query.
    + apply construct_query_raise_keeps.
  - unfold generate_query. apply construct_query_preserves.
  - rewrite filter_for_state. split; [now repeat split|]. split; [reflexivity|].
    intros H. rewrite (filter_keeps_fallback _ _ _ H).
    apply set_error_response_same.
  - unfold filter_plain.
    now destruct (_filter_response response (operation_name cls) None).
Qed.

(** ** [json.dumps] and [json.loads] on strings *)

#[local] Ltac Zify.zify_post_hook ::= Z.to_euclidean_division_equations.

Ltac compare_cases :=
  repeat match goal with
    | |- context [?a <=? ?b] => destruct (N.leb_spec a b)
    | |- context [?a <? ?b] => destruct (N.ltb_spec a b)
    | |- context [?a =? ?b] => destruct (N.eqb_spec a b)
    end;
  cbn [andb negb]; try lia.

Lemma hex_value_digit d : d < 16 -> hex_value (hex_digit d) = Some d.
Proof.
  intros Hd. unfold hex_value, hex_digit.
  compare_cases; f_equal; lia.
Qed.

Lemma decode_hex4 n :
  n < 65536 ->
  decode_uXXXX (hex_digit (n / 4096)) (hex_digit (n / 256 mod 16))
    (hex_digit (n / 16 mod 16)) (hex_digit (n mod 16)) = Some n.
Proof.
  intros Hn. unfold decode_uXXXX.
  rewrite !hex_value_digit by lia. f_equal. lia.
Qed.

Lemma land_shiftl_low h l : l < 1024 -> N.land (N.shiftl h 10) l = 0.
Proof.
  intros Hl. apply N.bits_inj. intros i. rewrite N.land_spec, N.bits_0.
  destruct (N.lt_ge_cases i 10) as [Hi|Hi].
  - now rewrite N.shiftl_spec_low.
  - destruct (N.eq_dec l 0) as [->|Hnz]; [now rewrite N.bits_0, andb_false_r|].
    rewrite (N.bits_above_log2 l i), andb_false_r; [reflexivity|].
    apply N.log2_lt_pow2; [lia|].
    apply N.lt_le_trans with (2 ^ 10); [exact Hl|].
    apply N.pow_le_mono_r; lia.
Qed.

Lemma lor_shiftl_low h l : l < 1024 -> N.lor (N.shiftl h 10) l = h * 1024 + l.
Proof.
  intros Hl.
  rewrite <- N.lxor_lor, <- N.add_nocarry_lxor by now apply land_shiftl_low.
  now rewrite N.shiftl_mul_pow2.
Qed.

(** The two halves the encoder writes for a code point above the basic
    plane, and the code point the decoder joins them to. *)
Lemma surrogate_halves c :
  65536 <= c -> c < 1114112 ->
  N.lor 55296 (N.land (N.shiftr (c - 65536) 10) 1023) = 55296 + (c - 65536) / 1024
  /\ N.lor 56320 (N.land (c - 65536) 1023) = 56320 + (c - 65536) mod 1024.
Proof.
  intros Hlo Hhi. split.
  - change 1023 with (N.ones 10). rewrite N.land_ones, N.shiftr_div_pow2.
    change (2 ^ 10) with 1024. change 55296 with (N.shiftl 54 10) at 1.
    rewrite lor_shiftl_low by lia. lia.
  - change 1023 with (N.ones 10). rewrite N.land_ones.
    change (2 ^ 10) with 1024. change 56320 with (N.shiftl 55 10) at 1.
    rewrite lor_shiftl_low by lia. lia.
Qed.

Lemma join_surrogate_halves c :
  65536 <= c -> c < 1114112 ->
  join_surrogates (55296 + (c - 65536) / 1024) (56320 + (c - 65536) mod 1024) = c.
Proof.
  intros Hlo Hhi. unfold join_surrogates.
  replace (55296 + (c - 65536) / 1024 - 55296) with ((c - 65536) / 1024) by lia.
  replace (56320 + (c - 65536) mod 1024 - 56320) with ((c - 65536) mod 1024) by lia.
  rewrite lor_shiftl_low by lia. lia.
Qed.

(** The scanner on a [u] escape, unfolded once. *)
Lemma scan_u h1 h2 h3 h4 rest2 :
  py_scanstring (BS :: 117 :: h1 :: h2 :: h3 :: h4 :: rest2)
  = match decode_uXXXX h1 h2 h3 h4 with
    | None => None
    | Some uni =>
        if is_high_surrogate uni then
          match rest2 with
          | b :: u :: rest2' =>
              if (b =? BS) && (u =? 117) then
                match rest2' with
                | g1 :: g2 :: g3 :: g4 :: rest3 =>
                    match decode_uXXXX g1 g2 g3 g4 with
                    | None => None
                    | Some uni2 =>
                        if is_low_surrogate uni2
                        then emit (join_surrogates uni uni2) (py_scanstring rest3)
                        else emit uni (py_scanstring rest2)
                    end
                | _ => None
                end
              else emit uni (py_scanstring rest2)
          | _ => emit uni (py_scanstring rest2)
          end
        else emit uni (py_scanstring rest2)
    end.
Proof. reflexivity. Qed.

Lemma scan_plain c t :
  c <> DQ -> c <> BS -> 32 <= c ->
  py_scanstring (c :: t) = emit c (py_scanstring t).
Proof.
  intros Hq Hb Hc. cbn [py_scanstring].
  apply N.eqb_neq in Hq, Hb. rewrite Hq, Hb.
  apply N.ltb_ge in Hc. now rewrite Hc.
Qed.

(** A [u] escape that is not the first half of a pair the scanner would
    join decodes to its code point. *)
Lemma scan_u_escape uni t :
  uni < 65536 ->
  (is_high_surrogate uni = true -> low_escape_ahead t = false) ->
  py_scanstring (u_escape uni ++ t) = emit uni (py_scanstring t).
Proof.
  intros Hu Hpair. unfold u_escape, hex4. cbn [app].
  rewrite scan_u, (decode_hex4 _ Hu).
  destruct (is_high_surrogate uni); [|reflexivity].
  specialize (Hpair eq_refl).
  destruct t as [|b [|u rest2']]; try reflexivity.
  destruct ((b =? BS) && (u =? 117)) eqn:Hbu; [|reflexivity].
  apply andb_true_iff in Hbu as [Hb Hu']. apply N.eqb_eq in Hb, Hu'. subst b u.
  destruct rest2' as [|g1 [|g2 [|g3 [|g4 rest3]]]]; try reflexivity.
  rewrite scan_u. unfold low_escape_ahead in Hpair.
  change ((BS =? BS) && (117 =? 117)) with true in Hpair. cbn [andb] in Hpair.
  destruct (decode_uXXXX g1 g2 g3 g4) as [uni2|]; [|reflexivity].
  rewrite Hpair. reflexivity.
Qed.

(** The two escapes of a code point above the basic plane are joined. *)
Lemma scan_surrogate_pair c t :
  65536 <= c -> c < 1114112 ->
  py_scanstring
    (u_escape (55296 + (c - 65536) / 1024)
     ++ u_escape (56320 + (c - 65536) mod 1024) ++ t)
  = emit c (py_scanstring t).
Proof.
  intros Hlo Hhi. unfold u_escape, hex4. cbn [app].
  rewrite scan_u, decode_hex4 by lia.
  replace (is_high_surrogate (55296 + (c - 65536) / 1024)) with true
    by (unfold is_high_surrogate; compare_cases).
  change ((BS =? BS) && (117 =? 117)) with true. cbv iota.
  rewrite decode_hex4 by lia.
  replace (is_low_surrogate (56320 + (c - 65536) mod 1024)) with true
    by (unfold is_low_surrogate; compare_cases).
  now rewrite join_surrogate_halves.
Qed.

(** The scanner gives back the character an escape was written for. *)
Lemma scan_escape_char c t :
  c < 1114112 ->
  (is_high_surrogate c = true -> low_escape_ahead t = false) ->
  py_scanstring (escape_char c ++ t) = emit c (py_scanstring t).
Proof.
  intros Hc Hpair. unfold escape_char.
  destruct (N.eqb_spec c BS) as [->|Hbs]; [reflexivity|].
  destruct (N.eqb_spec c DQ) as [->|Hdq]; [reflexivity|].
  destruct (N.eqb_spec c 8) as [->|H8]; [reflexivity|].
  destruct (N.eqb_spec c 12) as [->|H12]; [reflexivity|].
  destruct (N.eqb_spec c 10) as [->|H10]; [reflexivity|].
  destruct (N.eqb_spec c 13) as [->|H13]; [reflexivity|].
  destruct (N.eqb_spec c 9) as [->|H9]; [reflexivity|].
  destruct (N.leb_spec 32 c) as [H32|H32]; cbn [andb].
  - destruct (N.leb_spec c 126) as [H126|H126].
    + now apply scan_plain.
    + destruct (N.ltb_spec c 65536) as [Hbmp|Hbmp].
      * now apply scan_u_escape.
      * cbv zeta. destruct (surrogate_halves c Hbmp Hc) as [-> ->].
        rewrite <- app_assoc. now apply scan_surrogate_pair.
  - replace (c <? 65536) with true by (symmetry; apply N.ltb_lt; lia).
    apply scan_u_escape; [lia|exact Hpair].
Qed.

Lemma low_escape_ahead_other b u t :
  (b =? BS) && (u =? 117) = false -> low_escape_ahead (b :: u :: t) = false.
Proof.
  intros H. unfold low_escape_ahead.
  destruct t as [|g1 [|g2 [|g3 [|g4 r]]]]; try reflexivity. now rewrite H.
Qed.

Lemma low_escape_ahead_plain c t : c <> BS -> low_escape_ahead (c :: t) = false.
Proof.
  intros Hc. destruct t as [|u t]; [reflexivity|].
  apply low_escape_ahead_other. apply N.eqb_neq in Hc. now rewrite Hc.
Qed.

Lemma low_escape_ahead_u n t :
  n < 65536 -> low_escape_ahead (u_escape n ++ t) = is_low_surrogate n.
Proof.
  intros Hn. unfold u_escape, hex4, low_escape_ahead. cbn [app].
  now rewrite (decode_hex4 _ Hn).
Qed.

(** After a character, the scanner sees the escape of a low surrogate only
    if the next character is one. *)
Lemma low_escape_ahead_encoded c rest t :
  c < 1114112 ->
  low_escape_ahead (escape_char c ++ flat_map escape_char rest ++ t)
  = is_low_surrogate c.
Proof.
  intros Hc. unfold escape_char.
  assert (Hnot : forall k, k < 56320 -> is_low_surrogate k = false)
    by (intros k Hk; unfold is_low_surrogate; compare_cases).
  destruct (N.eqb_spec c BS) as [->|Hbs];
    [cbn [app]; rewrite low_escape_ahead_other by reflexivity; reflexivity|].
  destruct (N.eqb_spec c DQ) as [->|Hdq];
    [cbn [app]; rewrite low_escape_ahead_other by reflexivity; reflexivity|].
  destruct (N.eqb_spec c 8) as [->|H8];
    [cbn [app]; rewrite low_escape_ahead_other by reflexivity; reflexivity|].
  destruct (N.eqb_spec c 12) as [->|H12];
    [cbn [app]; rewrite low_escape_ahead_other by reflexivity; reflexivity|].
  destruct (N.eqb_spec c 10) as [->|H10];
    [cbn [app]; rewrite low_escape_ahead_other by reflexivity; reflexivity|].
  destruct (N.eqb_spec c 13) as [->|H13];
    [cbn [app]; rewrite low_escape_ahead_other by reflexivity; reflexivity|].
  destruct (N.eqb_spec c 9) as [->|H9];
    [cbn [app]; rewrite low_escape_ahead_other by reflexivity; reflexivity|].
  destruct (N.leb_spec 32 c) as [H32|H32]; cbn [andb].
  - destruct (N.leb_spec c 126) as [H126|H126].
    + cbn [app]. rewrite low_escape_ahead_plain by exact Hbs.
      symmetry. apply Hnot. lia.
    + destruct (N.ltb_spec c 65536) as [Hbmp|Hbmp].
      * now apply low_escape_ahead_u.
      * cbv zeta. destruct (surrogate_halves c Hbmp Hc) as [-> ->].
        rewrite <- app_assoc, low_escape_ahead_u by lia.
        rewrite Hnot by lia. unfold is_low_surrogate. compare_cases.
  - replace (c <? 65536) with true by (symmetry; apply N.ltb_lt; lia).
    now apply low_escape_ahead_u; lia.
Qed.

Lemma scan_encoded s :
  no_surrogate_pair s = true ->
  py_scanstring (flat_map escape_char s ++ [DQ]) = Some (s, []).
Proof.
  induction s as [|c rest IH]; intros Hs; [reflexivity|].
  cbn [no_surrogate_pair] in Hs.
  apply andb_true_iff in Hs as [Hs Hrest].
  apply andb_true_iff in Hs as [Hc Hpair].
  apply N.ltb_lt in Hc. apply negb_true_iff in Hpair.
  cbn [flat_map]. rewrite <- app_assoc, scan_escape_char, (IH Hrest);
    [reflexivity|exact Hc|].
  intros Hhigh. rewrite Hhigh in Hpair. cbn [andb] in Hpair.
  destruct rest as [|c' rest']; [reflexivity|].
  cbn [flat_map]. rewrite <- app_assoc, low_escape_ahead_encoded; [exact Hpair|].
  cbn [no_surrogate_pair] in Hrest.
  apply andb_true_iff in Hrest as [Hrest _].
  apply andb_true_iff in Hrest as [Hc' _]. now apply N.ltb_lt.
Qed.

(** [json.loads(json.dumps(s)) == s] *)
Lemma loads_dumps_str s :
  no_surrogate_pair s = true ->
  json_loads_str (py_encode_basestring_ascii s) = Some s.
Proof.
  intros Hs. unfold json_loads_str, py_encode_basestring_ascii.
  change (DQ =? DQ) with true. cbv iota. now rewrite (scan_encoded _ Hs).
Qed.

(** C9, as the spec states it, fails: a Python string may hold a high
    surrogate followed by a low one, as two characters; each is written as
    its own [u] escape, and the decoder joins the two escapes into one
    character. *)
Lemma surrogate_pair_not_given_back :
  _parse_format_params [(lit "a", VStr [55357; 56832])] [(lit "a", QText FREE)]
  = (Ok (lit "a:" ++ quoted (lit "\ud83d\ude00")), [])
  /\ json_loads_str (quoted (lit "\ud83d\ude00")) = Some [128512]
  /\ Some [128512] <> Some [55357; 56832].
Proof. repeat split. discriminate. Qed.

(** C9, amended: a string value of a [FREE] parameter in which no high
    surrogate is followed at once by a low surrogate (every string of
    Unicode scalar values is one) is rendered between double quotes, with
    its characters escaped, and decoding the rendered text as a JSON string
    gives the value back, quotes and backslashes in it included. *)
Theorem free_text_round_trip params pre name post s fa la fb lb :
  dict_get name params = Some (VStr s) ->
  no_surrogate_pair s = true ->
  query_inputs params pre = (Ok fa, la) ->
  query_inputs params post = (Ok fb, lb) ->
  _parse_format_params params (pre ++ (name, QText FREE) :: post)
  = (Ok (py_join (lit ",")
           (fa ++ (name ++ lit ":" ++ py_encode_basestring_ascii s) :: fb)),
     la ++ lb)
  /\ py_encode_basestring_ascii s = quoted (flat_map escape_char s)
  /\ json_loads_str (py_encode_basestring_ascii s) = Some s.
Proof.
  intros Hname Hs Hpre Hpost. split; [|split].
  - pose proof (loop_body_present _ _ _ _ _ _ Hname
                  (format_present_free_str name s)) as Hloop.
    exact (parse_split _ _ _ _ _ _ _ _ _ _ _ Hpre Hloop Hpost).
  - reflexivity.
  - now apply loads_dumps_str.
Qed.

(** A value with quotes, a backslash, a Latin-1 letter and a character
    above the basic plane. *)
Lemma free_text_round_trip_example :
  _parse_format_params
    [(lit "a", VStr (lit "say " ++ [DQ] ++ lit "hi" ++ [DQ; BS; 233; 128512]))]
    [(lit "a", QText FREE)]
  = (Ok (lit "a:" ++ quoted (lit "say \" ++ [DQ] ++ lit "hi\" ++ [DQ]
                             ++ lit "\\\u00e9\ud83d\ude00")), [])
  /\ json_loads_str
       (quoted (lit "say \" ++ [DQ] ++ lit "hi\" ++ [DQ]
                ++ lit "\\\u00e9\ud83d\ude00"))
     = Some (lit "say " ++ [DQ] ++ lit "hi" ++ [DQ; BS; 233; 128512]).
Proof.
  pose proof (free_text_round_trip
                [(lit "a", VStr (lit "say " ++ [DQ] ++ lit "hi" ++ [DQ; BS; 233; 128512]))]
                [] (lit "a") []
                (lit "say " ++ [DQ] ++ lit "hi" ++ [DQ; BS; 233; 128512])
                [] [] [] [] eq_refl eq_refl eq_refl eq_refl) as [H1 [_ H2]].
  split; [exact H1 | exact H2].
Defined.

(** ** The request string *)

(** The request is [type{name(args)], then [{f1,f2,...}] when the operation
    has selections, then [}]. *)
Theorem construct_query_format cls params q logs :
  _parse_format_params params (query_args cls) = (Ok q, logs) ->
  fst (_construct_query cls params)
  = (Ok (operation_type cls ++ lit "{" ++ operation_name cls
         ++ lit "(" ++ q ++ lit ")"
         ++ (if selections_truthy (selections cls)
             then lit "{"
                  ++ py_join (lit ",") (match selections cls with
                                        | Some fs => fs
                                        | None => []
                                        end)
                  ++ lit "}"
             else [])
         ++ lit "}"), logs).
Proof.
  intros Hq. unfold _construct_query. rewrite Hq.
  cbn [fst selections set_query query].
  destruct (selections_truthy (selections cls));
    cbn [query set_query]; now rewrite <- ?app_assoc.
Qed.

(** The breadcrumb of a project [x] with nothing else known, and a usage
    query. *)
Lemma construct_query_format_example :
  fst (_construct_query AddBreadcrumb [(lit "project", VStr (lit "x"))])
  = (Ok (lit "mutation{add_breadcrumb(project:" ++ quoted (lit "x")
         ++ lit ",ctx:{},proc:{}){success}}"), [])
  /\ fst (_construct_query GetUsage
            [(lit "project", VStr (lit "x")); (lit "unique", VBool true)])
     = (Ok (lit "query{get_usage(project:" ++ quoted (lit "x")
            ++ lit ",unique:true)}"), []).
Proof.
  split.
  - exact (construct_query_format AddBreadcrumb
             [(lit "project", VStr (lit "x"))]
             (lit "project:" ++ quoted (lit "x") ++ lit ",ctx:{},proc:{}") []
             eq_refl).
  - exact (construct_query_format GetUsage
             [(lit "project", VStr (lit "x")); (lit "unique", VBool true)]
             (lit "project:" ++ quoted (lit "x") ++ lit ",unique:true") []
             eq_refl).
Defined.

(** * Further properties of the builder *)

Lemma bind_ret_r {A} (m : M A) : bind m (fun a => ret a) = m.
Proof. destruct m as [[a| |] l]; cbn; now rewrite ?app_nil_r. Qed.

Lemma bind_no_log {A B} (m : M A) (f : A -> M B) :
  snd m = [] -> (forall a, snd (f a) = []) -> snd (bind m f) = [].
Proof.
  intros Hm Hf. destruct m as [[a| |] l]; cbn in *; subst l; try reflexivity.
  specialize (Hf a). now destruct (f a).
Qed.

Lemma for_items_no_log {K V A} (body : K -> V -> M (list A)) items :
  Forall (fun entry => snd (body (fst entry) (snd entry)) = []) items ->
  snd (for_items body items) = [].
Proof.
  induction 1 as [|[k v] items Hk _ IH]; [reflexivity|].
  cbn [for_items]. apply bind_no_log; [exact Hk|].
  intros xs. apply bind_no_log; [exact IH|reflexivity].
Qed.

Lemma py_format_no_log v : snd (py_format v) = [].
Proof. now destruct v. Qed.

Lemma format_present_no_log qarg q val : snd (format_present qarg q val) = [].
Proof.
  unfold format_present. destruct q as [t|name|sub]; cbn [qval_name].
  - apply bind_no_log; [reflexivity|]. intros n.
    apply bind_no_log.
    + destruct (str_eqb n (lit "FREE")); [reflexivity|].
      destruct (str_eqb n (lit "LITERAL")); reflexivity.
    + intros fval. apply bind_no_log; [apply py_format_no_log|reflexivity].
  - apply bind_no_log; [reflexivity|]. intros n.
    apply bind_no_log.
    + destruct (str_eqb n (lit "FREE")); [reflexivity|].
      destruct (str_eqb n (lit "LITERAL")); reflexivity.
    + intros fval. apply bind_no_log; [apply py_format_no_log|reflexivity].
  - reflexivity.
Qed.

Lemma loop_body_no_log params q : forall qarg, snd (loop_body params qarg q) = [].
Proof.
  induction q as [t|name|sub IH] using qval_nested_ind; intros qarg;
    cbn [loop_body]; destruct (dict_get qarg params) as [val|];
    try reflexivity;
    try (apply bind_no_log; [apply format_present_no_log|reflexivity]).
  apply bind_no_log; [|reflexivity].
  apply bind_no_log; [|reflexivity].
  apply for_items_no_log.
  eapply Forall_impl; [|exact IH]. intros [k v] H. apply H.
Qed.

(** The builder sends nothing to the logger, whatever the values and the
    schema: the one [logger.error] call of the source is never reached,
    since its argument [qarg.name] raises first. *)
Theorem builder_never_logs params query_args :
  snd (_parse_format_params params query_args) = [].
Proof.
  unfold _parse_format_params, query_inputs.
  apply bind_no_log; [|reflexivity].
  apply for_items_no_log.
  apply Forall_forall. intros [k v] _. apply loop_body_no_log.
Qed.

Lemma for_items_ext {K V A} (body1 body2 : K -> V -> M (list A)) items :
  (forall entry, In entry items ->
     body1 (fst entry) (snd entry) = body2 (fst entry) (snd entry)) ->
  for_items body1 items = for_items body2 items.
Proof.
  induction items as [|[k v] items IH]; intros H; [reflexivity|].
  cbn [for_items].
  pose proof (H (k, v) (or_introl eq_refl)) as Hk. cbn [fst snd] in Hk.
  rewrite Hk, IH; [reflexivity|]. intros entry Hin. apply H. now right.
Qed.

Lemma loop_body_ext p1 p2 q : forall qarg,
  (forall n, In n (qarg :: qval_names q) -> dict_get n p1 = dict_get n p2) ->
  loop_body p1 qarg q = loop_body p2 qarg q.
Proof.
  induction q as [t|name|sub IH] using qval_nested_ind; intros qarg H;
    cbn [loop_body]; rewrite (H qarg (or_introl eq_refl)); try reflexivity.
  destruct (dict_get qarg p2) as [val|]; [reflexivity|].
  rewrite (for_items_ext (loop_body p1) (loop_body p2) sub); [reflexivity|].
  intros [k v] Hin. cbn [fst snd].
  rewrite Forall_forall in IH. apply (IH (k, v) Hin).
  intros n Hn. apply H. right. cbn [qval_names].
  apply in_flat_map. exists (k, v). now split.
Qed.

(** The built string depends on the values only through what they hold
    under the names of the schema, nested groups included: the order of the
    values and any key the schema does not name have no effect. *)
Theorem build_depends_on_schema_names p1 p2 query_args :
  (forall n, In n (schema_names query_args) -> dict_get n p1 = dict_get n p2) ->
  _parse_format_params p1 query_args = _parse_format_params p2 query_args.
Proof.
  intros H. unfold _parse_format_params, query_inputs.
  rewrite (for_items_ext (loop_body p1) (loop_body p2) query_args); [reflexivity|].
  intros [k v] Hin. cbn [fst snd]. apply loop_body_ext.
  intros n Hn. apply H. unfold schema_names.
  apply in_flat_map. exists (k, v). now split.
Qed.

(** The values of the spec's example in the other order, with a key the
    schema does not name. *)
Lemma build_depends_on_schema_names_example :
  _parse_format_params
    [(lit "zzz", VInt 7); (lit "c", VBool true); (lit "a", VStr (lit "x"))]
    example_schema
  = _parse_format_params
      [(lit "a", VStr (lit "x")); (lit "c", VBool true)] example_schema.
Proof.
  apply build_depends_on_schema_names.
  intros n [<-|[<-|[<-|[]]]]; reflexivity.
Defined.

Lemma query_inputs_skip params pre k q post :
  loop_body params k q = (Ok [], []) ->
  query_inputs params (pre ++ (k, q) :: post) = query_inputs params (pre ++ post).
Proof.
  intros Hk. unfold query_inputs.
  induction pre as [|[k' q'] pre IH]; cbn [app for_items].
  - rewrite Hk. cbn [bind app].
    destruct (for_items (loop_body params) post) as [[ys| |] l]; cbn;
      now rewrite ?app_nil_r.
  - now rewrite IH.
Qed.

(** A leaf whose name is not a key of the values leaves no trace: the
    builder returns what it returns for the schema without that entry. *)
Theorem absent_leaf_is_omitted params pre name q kind post :
  dict_get name params = None ->
  kind_name q = Some kind ->
  _parse_format_params params (pre ++ (name, q) :: post)
  = _parse_format_params params (pre ++ post).
Proof.
  intros Hname Hleaf. unfold _parse_format_params.
  rewrite query_inputs_skip; [reflexivity|].
  destruct q as [t|n|sub]; cbn [loop_body]; rewrite Hname;
    [reflexivity|reflexivity|discriminate Hleaf].
Qed.

(** [get_usage] with no [end] given: as if the schema had no such entry. *)
Lemma absent_leaf_is_omitted_example :
  _parse_format_params
    [(lit "project", VStr (lit "x")); (lit "unique", VBool true)]
    (query_args GetUsage)
  = _parse_format_params
      [(lit "project", VStr (lit "x")); (lit "unique", VBool true)]
      [(lit "project", QText FREE); (lit "start", QText FREE);
       (lit "unique", QText LITERAL)].
Proof.
  exact (absent_leaf_is_omitted
           [(lit "project", VStr (lit "x")); (lit "unique", VBool true)]
           [(lit "project", QText FREE); (lit "start", QText FREE)]
           (lit "end") (QText FREE) (lit "FREE") [(lit "unique", QText LITERAL)]
           eq_refl eq_refl).
Defined.

Lemma format_present_group qarg sub val :
  format_present qarg (QGroup sub) val = (Raise AttributeError, []).
Proof. reflexivity. Qed.

(** A value given under the name of a nested group, whatever it is, aborts
    the build: the entry is handled as a leaf, and [qval.name] of a dict
    raises [AttributeError]. *)
Theorem group_name_in_values_aborts params pre g sub post val fa la :
  dict_get g params = Some val ->
  query_inputs params pre = (Ok fa, la) ->
  _parse_format_params params (pre ++ (g, QGroup sub) :: post)
  = (Raise AttributeError, la).
Proof.
  intros Hg Hpre.
  pose proof (loop_body_present_raise _ _ _ _ _ _ Hg
                (format_present_group g sub val)) as Hloop.
  rewrite (parse_split_raise _ _ _ _ post _ _ _ _ Hpre Hloop).
  now rewrite app_nil_r.
Qed.

(** [add_breadcrumb] called with a keyword [ctx]. *)
Lemma group_name_in_values_aborts_example :
  _parse_format_params
    [(lit "project", VStr (lit "x")); (lit "ctx", VStr (lit "y"))]
    (query_args AddBreadcrumb)
  = (Raise AttributeError, []).
Proof.
  exact (group_name_in_values_aborts
           [(lit "project", VStr (lit "x")); (lit "ctx", VStr (lit "y"))]
           [(lit "project", QText FREE); (lit "project_version", QText FREE);
            (lit "language", QText FREE); (lit "language_version", QText FREE)]
           (lit "ctx") _ _ (VStr (lit "y"))
           [lit "project:" ++ quoted (lit "x")] []
           eq_refl eq_refl).
Defined.

(** A string given for a [LITERAL] entry goes into the query as it is,
    with no quotes around it and nothing in it escaped. *)
Theorem literal_string_is_verbatim params pre name post s fa la fb lb :
  dict_get name params = Some (VStr s) ->
  query_inputs params pre = (Ok fa, la) ->
  query_inputs params post = (Ok fb, lb) ->
  _parse_format_params params (pre ++ (name, QText LITERAL) :: post)
  = (Ok (py_join (lit ",") (fa ++ (name ++ lit ":" ++ s) :: fb)), la ++ lb).
Proof.
  intros Hname Hpre Hpost.
  assert (Hf : format_present name (QText LITERAL) (VStr s)
               = (Ok (name ++ lit ":" ++ s), [])) by reflexivity.
  pose proof (loop_body_present _ _ _ _ _ _ Hname Hf) as Hloop.
  exact (parse_split _ _ _ _ _ _ _ _ _ _ _ Hpre Hloop Hpost).
Qed.

(** A status that closes the argument list and opens another field. *)
Lemma literal_string_is_verbatim_example :
  _parse_format_params
    [(lit "project", VStr (lit "x")); (lit "status", VStr (lit "R){id}#"))]
    [(lit "project", QText FREE); (lit "status", QText LITERAL)]
  = (Ok (lit "project:" ++ quoted (lit "x") ++ lit ",status:R){id}#"), []).
Proof.
  exact (literal_string_is_verbatim
           [(lit "project", VStr (lit "x")); (lit "status", VStr (lit "R){id}#"))]
           [(lit "project", QText FREE)] (lit "status") [] (lit "R){id}#")
           [lit "project:" ++ quoted (lit "x")] [] [] []
           eq_refl eq_refl eq_refl).
Defined.

(** [None] given for an entry is not left out: a [LITERAL] entry renders it
    as Python's [None], a [FREE] entry as JSON's [null]. *)
Theorem none_is_rendered params pre name post fa la fb lb :
  dict_get name params = Some VNone ->
  query_inputs params pre = (Ok fa, la) ->
  query_inputs params post = (Ok fb, lb) ->
  _parse_format_params params (pre ++ (name, QText LITERAL) :: post)
  = (Ok (py_join (lit ",") (fa ++ (name ++ lit ":None") :: fb)), la ++ lb)
  /\ _parse_format_params params (pre ++ (name, QText FREE) :: post)
     = (Ok (py_join (lit ",") (fa ++ (name ++ lit ":null") :: fb)), la ++ lb).
Proof.
  intros Hname Hpre Hpost. split.
  - assert (Hf : format_present name (QText LITERAL) VNone
                 = (Ok (name ++ lit ":None"), [])) by reflexivity.
    pose proof (loop_body_present _ _ _ _ _ _ Hname Hf) as Hloop.
    exact (parse_split _ _ _ _ _ _ _ _ _ _ _ Hpre Hloop Hpost).
  - assert (Hf : format_present name (QText FREE) VNone
                 = (Ok (name ++ lit ":null"), [])) by reflexivity.
    pose proof (loop_body_present _ _ _ _ _ _ Hname Hf) as Hloop.
    exact (parse_split _ _ _ _ _ _ _ _ _ _ _ Hpre Hloop Hpost).
Qed.

(** [get_usage] with [unique=None] and with [end=None]. *)
Lemma none_is_rendered_example :
  _parse_format_params [(lit "unique", VNone)] [(lit "unique", QText LITERAL)]
  = (Ok (lit "unique:None"), [])
  /\ _parse_format_params [(lit "unique", VNone)] [(lit "unique", QText FREE)]
     = (Ok (lit "unique:null"), []).
Proof.
  exact (none_is_rendered [(lit "unique", VNone)] [] (lit "unique") []
           [] [] [] [] eq_refl eq_refl eq_refl).
Defined.






(** ** What [generate_query] hands to the builder *)

Lemma dict_get_absent {V} k (d : list (pystr * V)) :
  name_in k (map fst d) = false -> dict_get k d = None.
Proof.
  induction d as [|[k' v] d IH]; [reflexivity|].
  cbn. intros H. apply orb_false_iff in H as [Hk Hd].
  rewrite Hk. now apply IH.
Qed.

Lemma dict_merge_cons {V} (d : list (pystr * V)) k v e :
  dict_merge d ((k, v) :: e) = dict_merge (dict_set k v d) e.
Proof. reflexivity. Qed.

(** [{**d, **e}[k]]: [e] first, then [d]. *)
Lemma dict_get_merge {V} (e : list (pystr * V)) : forall d k,
  keys_distinct (map fst e) = true ->
  dict_get k (dict_merge d e)
  = match dict_get k e with
    | Some v => Some v
    | None => dict_get k d
    end.
Proof.
  induction e as [|[k0 v0] e IH]; intros d k He; [reflexivity|].
  cbn [map fst keys_distinct] in He.
  apply andb_true_iff in He as [Hk0 He]. apply negb_true_iff in Hk0.
  rewrite dict_merge_cons, (IH _ _ He). cbn [dict_get].
  destruct (str_eqb k k0) eqn:E.
  - apply str_eqb_eq in E as ->.
    now rewrite (dict_get_absent _ _ Hk0), dict_get_set_same.
  - now rewrite (dict_get_set_other _ _ _ _ E).
Qed.

Lemma name_in_false a names n :
  name_in a names = false -> In n names -> str_eqb n a = false.
Proof.
  unfold name_in. intros H Hin.
  destruct (str_eqb n a) eqn:E; [|reflexivity].
  apply str_eqb_eq in E as ->.
  assert (Ht : existsb (str_eqb a) names = true)
    by (apply existsb_exists; exists a; split; [exact Hin|apply str_eqb_refl]).
  now rewrite Ht in H.
Qed.

Lemma construct_query_ext cls p1 p2 :
  (forall n, In n (schema_names (query_args cls)) -> dict_get n p1 = dict_get n p2) ->
  _construct_query cls p1 = _construct_query cls p2.
Proof.
  intros H. unfold _construct_query, _parse_format_params, query_inputs.
  rewrite (for_items_ext (loop_body p1) (loop_body p2) (query_args cls));
    [reflexivity|].
  intros [k v] Hin. cbn [fst snd]. apply loop_body_ext.
  intros n Hn. apply H. unfold schema_names.
  apply in_flat_map. exists (k, v). now split.
Qed.

(** [generate_query] builds the query from the keyword arguments laid over
    the values of [Config.populate()], which are used only by an operation
    with [fingerprint] set: a keyword argument wins over a populated value
    of the same name.  The entry [args] that [_introspec] adds changes
    nothing, as long as no parameter of the schema is called [args]. *)
Theorem generate_query_precedence cls populate args kwargs :
  keys_distinct (map fst kwargs) = true ->
  name_in (lit "args") (schema_names (query_args cls)) = false ->
  generate_query cls populate args kwargs
  = _construct_query cls
      (dict_merge (if fingerprint cls then populate else []) kwargs)
  /\ forall k,
       dict_get k (dict_merge (if fingerprint cls then populate else []) kwargs)
       = match dict_get k kwargs with
         | Some v => Some v
         | None => if fingerprint cls then dict_get k populate else None
         end.
Proof.
  intros Hkw Hargs. split.
  - unfold generate_query. apply construct_query_ext.
    intros n Hn. cbn [dict_merge fold_left fst snd].
    apply dict_get_set_other. exact (name_in_false _ _ _ Hargs Hn).
  - intros k. rewrite (dict_get_merge _ _ _ Hkw).
    now destruct (fingerprint cls).
Qed.

(** A breadcrumb whose [project] is given and whose [language] is
    detected; the detected [project] is not used. *)
Lemma generate_query_precedence_example :
  fst (generate_query AddBreadcrumb
         [(lit "language", VStr (lit "python")); (lit "project", VStr (lit "auto"))]
         [] [(lit "project", VStr (lit "x"))])
  = (Ok (lit "mutation{add_breadcrumb(project:" ++ quoted (lit "x")
         ++ lit ",language:" ++ quoted (lit "python")
         ++ lit ",ctx:{},proc:{}){success}}"), []).
Proof.
  rewrite (proj1 (generate_query_precedence AddBreadcrumb
                    [(lit "language", VStr (lit "python"));
                     (lit "project", VStr (lit "auto"))]
                    [] [(lit "project", VStr (lit "x"))] eq_refl eq_refl)).
  reflexivity.
Defined.

(** * Further properties of the response filter *)

Lemma filter_for_result cls response :
  fst (filter_for cls response)
  = fst (_filter_response response (operation_name cls) (error_response cls)).
Proof.
  unfold filter_for.
  now destruct (_filter_response response (operation_name cls) (error_response cls)).
Qed.

Lemma dict_set_truthy k v (d : pydict) : falsy (Some (dict_set k v d)) = false.
Proof.
  destruct d as [|[k' v'] d]; [reflexivity|].
  cbn [dict_set]. now destruct (str_eqb k k').
Qed.

Lemma after_failure_read response fallback message :
  fst (read_error_message response) = Ok message ->
  after_failure response fallback = dict_set (lit "message") message fallback.
Proof. intros H. unfold after_failure. now rewrite H. Qed.

Lemma after_failure_raise response fallback e :
  fst (read_error_message response) = Raise e ->
  after_failure response fallback = fallback.
Proof. intros H. unfold after_failure. now rewrite H. Qed.

(** An error message outlives the call that read it.  When an operation
    has a non-empty [error_response] and a response fails with a message
    that can be read, the message is written into that class attribute; a
    later response that fails with nothing to read gets the fallback with
    the message of the earlier call. *)
Theorem error_message_persists cls first later message e :
  falsy (error_response cls) = false ->
  success_data first = None ->
  fst (read_error_message first) = Ok message ->
  success_data later = None ->
  fst (read_error_message later) = Raise e ->
  fst (filter_for (snd (filter_for cls first)) later)
  = (Ok (VDict (dict_set (lit "message") message (rebind (error_response cls)))),
     []).
Proof.
  intros Hf Hs1 Hm Hs2 He.
  rewrite filter_for_result, filter_for_state.
  cbn [operation_name error_response set_error_response].
  unfold _filter_response at 2.
  rewrite (filter_with_failure _ _ _ Hs1), Hf. cbn [snd].
  rewrite (after_failure_read _ _ _ Hm).
  unfold _filter_response.
  rewrite (filter_with_failure _ _ _ Hs2), dict_set_truthy. cbn [fst].
  rewrite (after_failure_raise _ _ _ He).
  unfold rebind at 1. now rewrite dict_set_truthy.
Qed.

(** [add_project]: a failure with a message, then a reply that is no JSON
    object. *)
Lemma error_message_persists_example :
  fst (filter_for
         (snd (filter_for AddProject
                 (VDict [(lit "errors",
                          VList [VDict [(lit "message", VStr (lit "bad input"))]])])))
         (VStr (lit "Bad Gateway")))
  = (Ok (VDict [(lit "success", VBool false); (lit "latest_version", VNone);
                (lit "message", VStr (lit "bad input"))]), []).
Proof.
  exact (error_message_persists AddProject
           (VDict [(lit "errors",
                    VList [VDict [(lit "message", VStr (lit "bad input"))]])])
           (VStr (lit "Bad Gateway")) (VStr (lit "bad input")) AttributeError
           eq_refl eq_refl eq_refl eq_refl eq_refl).
Defined.

(** What [check_project] and [get_usage], which pass no fallback, return
    for a response that is not a success: [success] is [False] and
    [message] is the first error's message when it can be read, the fixed
    text [ERROR] otherwise; the operation is left as it was. *)
Theorem plain_failure_result cls response :
  success_data response = None ->
  filter_plain cls response
  = ((Ok (VDict [(lit "success", VBool false);
                 (lit "message",
                  match fst (read_error_message response) with
                  | Ok message => message
                  | _ => VStr ERROR
                  end)]), []),
     cls).
Proof.
  intros Hs. unfold filter_plain, _filter_response.
  rewrite (filter_with_failure _ _ _ Hs). cbn [rebind falsy].
  unfold after_failure.
  now destruct (fst (read_error_message response)).
Qed.

(** [check_project] on an error reply, and on one with an empty list of
    errors. *)
Lemma plain_failure_result_example :
  filter_plain CheckProject
    (VDict [(lit "data", VNone);
            (lit "errors", VList [VDict [(lit "message", VStr (lit "no such project"))]])])
  = ((Ok (VDict [(lit "success", VBool false);
                 (lit "message", VStr (lit "no such project"))]), []),
     CheckProject)
  /\ filter_plain CheckProject (VDict [(lit "errors", VList [])])
     = ((Ok (VDict [(lit "success", VBool false); (lit "message", VStr ERROR)]), []),
        CheckProject).
Proof.
  split.
  - exact (plain_failure_result CheckProject
             (VDict [(lit "data", VNone);
                     (lit "errors",
                      VList [VDict [(lit "message", VStr (lit "no such project"))]])])
             eq_refl).
  - exact (plain_failure_result CheckProject (VDict [(lit "errors", VList [])])
             eq_refl).
Defined.

(** * The text of a [FREE] string *)

Lemma hex_digit_printable d : d < 16 -> printable_ascii (hex_digit d) = true.
Proof.
  intros Hd. unfold printable_ascii, hex_digit.
  destruct (N.ltb_spec d 10); compare_cases; reflexivity.
Qed.

Lemma u_escape_printable n :
  n < 65536 -> forallb printable_ascii (u_escape n) = true.
Proof.
  intros Hn. unfold u_escape, hex4. cbn [forallb].
  rewrite !hex_digit_printable by lia. reflexivity.
Qed.

Lemma escape_char_printable c :
  c < 1114112 -> forallb printable_ascii (escape_char c) = true.
Proof.
  intros Hc. unfold escape_char.
  destruct (N.eqb_spec c BS); [reflexivity|].
  destruct (N.eqb_spec c DQ); [reflexivity|].
  destruct (N.eqb_spec c 8); [reflexivity|].
  destruct (N.eqb_spec c 12); [reflexivity|].
  destruct (N.eqb_spec c 10); [reflexivity|].
  destruct (N.eqb_spec c 13); [reflexivity|].
  destruct (N.eqb_spec c 9); [reflexivity|].
  destruct ((32 <=? c) && (c <=? 126)) eqn:Hp.
  - cbn [forallb]. unfold printable_ascii. now rewrite Hp.
  - destruct (N.ltb_spec c 65536) as [Hbmp|Hbmp].
    + now apply u_escape_printable.
    + cbv zeta. destruct (surrogate_halves c Hbmp Hc) as [-> ->].
      rewrite forallb_app, !u_escape_printable by lia. reflexivity.
Qed.

(** Whatever the string given for a [FREE] entry, its text in the query is
    made of printable ASCII characters only, space to tilde: no control
    character and no character above U+007E is sent as it is. *)
Theorem free_text_is_printable_ascii s :
  valid_codepoints s = true ->
  forallb printable_ascii (py_encode_basestring_ascii s) = true.
Proof.
  intros Hs. unfold py_encode_basestring_ascii.
  cbn [forallb]. rewrite forallb_app. cbn.
  rewrite andb_true_r.
  induction s as [|c s IH]; [reflexivity|].
  cbn [valid_codepoints forallb] in Hs. apply andb_true_iff in Hs as [Hc Hs].
  apply N.ltb_lt in Hc.
  cbn [flat_map]. rewrite forallb_app, (escape_char_printable _ Hc).
  now apply IH.
Qed.

(** A line break, a letter with an accent, a lone surrogate and a
    character above the basic plane. *)
Lemma free_text_is_printable_ascii_example :
  forallb printable_ascii
    (py_encode_basestring_ascii [10; 233; 55357; 128512]) = true.
Proof.
  exact (free_text_is_printable_ascii [10; 233; 55357; 128512] eq_refl).
Defined.

(** * The builder on a schema in two parts *)

Lemma bind_ok_inv {A B} (m : M A) (f : A -> M B) b l :
  bind m f = (Ok b, l) ->
  exists a l1 l2, m = (Ok a, l1) /\ f a = (Ok b, l2) /\ l = l1 ++ l2.
Proof.
  destruct m as [[a| |] l1]; cbn [bind]; try discriminate.
  destruct (f a) as [r l2] eqn:Hf. intros [= -> <-].
  now exists a, l1, l2.
Qed.

Lemma format_present_nonempty qarg q val text l :
  format_present qarg q val = (Ok text, l) -> text <> [].
Proof.
  unfold format_present. intros H.
  apply bind_ok_inv in H as (name & l1 & l2 & _ & H & _).
  apply bind_ok_inv in H as (fval & l3 & l4 & _ & H & _).
  apply bind_ok_inv in H as (t & l5 & l6 & _ & H & _).
  injection H as <- _. intros E.
  apply app_eq_nil in E as [_ E]. discriminate E.
Qed.

Lemma loop_body_nonempty params qarg q fragments l :
  loop_body params qarg q = (Ok fragments, l) ->
  Forall (fun fragment => fragment <> []) fragments.
Proof.
  destruct q as [t|name|sub]; cbn [loop_body];
    destruct (dict_get qarg params) as [val|]; intros H;
    try (injection H as <- _; constructor);
    try (apply bind_ok_inv in H as (text & l1 & l2 & Hf & H & _);
         injection H as <- _; constructor; [|constructor];
         exact (format_present_nonempty _ _ _ _ _ Hf)).
  apply bind_ok_inv in H as (vals & l1 & l2 & _ & H & _).
  injection H as <- _. constructor; [|constructor].
  intros E. apply app_eq_nil in E as [_ E]. discriminate E.
Qed.

Lemma query_inputs_nonempty params query_args : forall fragments l,
  query_inputs params query_args = (Ok fragments, l) ->
  Forall (fun fragment => fragment <> []) fragments.
Proof.
  unfold query_inputs.
  induction query_args as [|[k q] rest IH]; intros fragments l H.
  - injection H as <- _. constructor.
  - cbn [for_items] in H.
    apply bind_ok_inv in H as (xs & l1 & l2 & Hk & H & _).
    apply bind_ok_inv in H as (ys & l3 & l4 & Hrest & H & _).
    injection H as <- _. apply Forall_app. split.
    + exact (loop_body_nonempty _ _ _ _ _ Hk).
    + exact (IH _ _ Hrest).
Qed.

Lemma py_join_nonempty sep parts :
  Forall (fun p => p <> []) parts -> parts <> [] -> py_join sep parts <> [].
Proof.
  intros H Hne. destruct parts as [|p rest]; [now elim Hne|].
  inversion H as [|? ? Hp _]; subst.
  destruct rest; cbn [py_join]; [exact Hp|].
  intros E. apply app_eq_nil in E as [E _]. now elim Hp.
Qed.

Lemma py_join_app sep a b :
  a <> [] -> b <> [] ->
  py_join sep (a ++ b) = py_join sep a ++ sep ++ py_join sep b.
Proof.
  intros Ha Hb. induction a as [|p a IH]; [now elim Ha|].
  destruct a as [|p' a].
  - cbn [app py_join]. destruct b; [now elim Hb|reflexivity].
  - change ((p :: p' :: a) ++ b) with (p :: (p' :: a) ++ b).
    change (py_join sep (p :: (p' :: a) ++ b))
      with (p ++ sep ++ py_join sep ((p' :: a) ++ b)).
    rewrite IH by discriminate.
    change (py_join sep (p :: p' :: a)) with (p ++ sep ++ py_join sep (p' :: a)).
    now rewrite <- !app_assoc.
Qed.

Lemma parse_inv params query_args q l :
  _parse_format_params params query_args = (Ok q, l) ->
  exists fragments,
    query_inputs params query_args = (Ok fragments, l)
    /\ q = py_join (lit ",") fragments.
Proof.
  unfold _parse_format_params. intros H.
  apply bind_ok_inv in H as (fragments & l1 & l2 & Hq & H & Hl).
  injection H as <- <-. rewrite app_nil_r in Hl. subst l1.
  now exists fragments.
Qed.

(** Building over a schema in two parts is building over each part and
    joining the two strings with a comma; a part that gives the empty
    string adds nothing, not even the comma. *)
Theorem build_of_concatenation params a b qa la qb lb :
  _parse_format_params params a = (Ok qa, la) ->
  _parse_format_params params b = (Ok qb, lb) ->
  _parse_format_params params (a ++ b)
  = (Ok (match qa, qb with
         | [], _ => qb
         | _, [] => qa
         | _, _ => qa ++ lit "," ++ qb
         end), la ++ lb).
Proof.
  intros Ha Hb.
  apply parse_inv in Ha as (fa & Ha & ->). apply parse_inv in Hb as (fb & Hb & ->).
  unfold _parse_format_params.
  rewrite (query_inputs_app params a b fa la (Ok fb) lb Ha Hb).
  cbn [bind ret]. rewrite app_nil_r. f_equal. f_equal.
  pose proof (query_inputs_nonempty _ _ _ _ Ha) as Na.
  pose proof (query_inputs_nonempty _ _ _ _ Hb) as Nb.
  destruct fa as [|x fa]; [reflexivity|].
  destruct fb as [|y fb].
  - rewrite app_nil_r.
    destruct (py_join (lit ",") (x :: fa)) eqn:E; [|reflexivity].
    now elim (py_join_nonempty (lit ",") (x :: fa) Na).
  - rewrite py_join_app by discriminate.
    destruct (py_join (lit ",") (x :: fa)) eqn:E;
      [now elim (py_join_nonempty (lit ",") (x :: fa) Na)|].
    destruct (py_join (lit ",") (y :: fb)) eqn:E';
      [now elim (py_join_nonempty (lit ",") (y :: fb) Nb)|].
    reflexivity.
Qed.

(** The schema of [get_usage] cut after [start], with [end] not given. *)
Lemma build_of_concatenation_example :
  _parse_format_params
    [(lit "project", VStr (lit "x")); (lit "unique", VBool true)]
    (query_args GetUsage)
  = (Ok (lit "project:" ++ quoted (lit "x") ++ lit ",unique:true"), [])
  /\ _parse_format_params
       [(lit "project", VStr (lit "x"))] (query_args GetUsage)
     = (Ok (lit "project:" ++ quoted (lit "x")), []).
Proof.
  split.
  - exact (build_of_concatenation
             [(lit "project", VStr (lit "x")); (lit "unique", VBool true)]
             [(lit "project", QText FREE); (lit "start", QText FREE)]
             [(lit "end", QText FREE); (lit "unique", QText LITERAL)]
             (lit "project:" ++ quoted (lit "x")) [] (lit "unique:true") []
             eq_refl eq_refl).
  - exact (build_of_concatenation
             [(lit "project", VStr (lit "x"))]
             [(lit "project", QText FREE); (lit "start", QText FREE)]
             [(lit "end", QText FREE); (lit "unique", QText LITERAL)]
             (lit "project:" ++ quoted (lit "x")) [] [] []
             eq_refl eq_refl).
Defined.
